(** * Photo editor: the batch edit / analyze workflow and its cached results

    A shallow embedding of the decision logic of the [App] component
    (state setters, the handlers [handleModeChange], [handleImagesSelect],
    [handleRemoveImage], [handleClearImages], [handleGenerate] and the
    session-restoring effect) and of the two functions of
    [services/geminiService.ts].

    The component state is a record of its eight [useState] cells;
    [localStorage] is a finite map from keys to strings; the handlers are
    programs of a small state-and-exception monad over a [World] that also
    keeps the ordered log of what the program did (setter calls, service
    calls, SDK requests, storage accesses, console output).  What the
    outside decides (whether the SDK constructor or a request throws, what
    a request answers, whether the storage refuses a write, what
    [JSON.parse] makes of a text) is an [Env] the theorems quantify over.

    Conventions of the model:
    - a setter call takes effect in program order, and a handler reads
      [originalImages], [prompt] and [mode] from the state it is called in
      (its closure);
    - a handler runs to its end before another one starts: the source gives
      no meaning to a handler that interleaves with a run in flight;
    - [getItem] and [removeItem] do not throw; [setItem] and [JSON.parse]
      may;
    - a string is a sequence of characters, compared character by
      character. *)

From stdpp Require Import base option list strings pretty gmap.
From Stdlib Require Import Ascii String List Arith Lia.
Import ListNotations.
Open Scope string_scope.
Open Scope list_scope.

(** ** JavaScript values the program handles *)

(** A thrown value: an [Error] object with its [message], or anything else
    ([err instanceof Error] is false for it). *)
Inductive Thrown :=
| ErrorObject (message : string)
| NonError (description : string).

(** How a call ends: normally with a value, or by throwing. *)
Inductive outcome (A : Type) :=
| Return (a : A)
| Throw (e : Thrown).
Arguments Return {A} a.
Arguments Throw {A} e.

(** [!s] on a string: only the empty string is falsy. *)
Definition truthy (s : string) : bool :=
  match s with EmptyString => false | String _ _ => true end.

(** [s.split(sep)] for a one-character separator. *)
Fixpoint split (sep : ascii) (s : string) : list string :=
  match s with
  | EmptyString => [EmptyString]
  | String c r =>
      if Ascii.eqb c sep then EmptyString :: split sep r
      else match split sep r with
           | h :: t => String c h :: t
           | [] => [String c EmptyString]
           end
  end.

(** JSON values; a number is kept as its lexeme. *)
#[local] Set Warnings "-register-all".
Inductive json :=
| JNull
| JBool (b : bool)
| JNumber (lexeme : string)
| JString (s : string)
| JArray (items : list json)
| JObject (members : list (string * json)).

Definition hex_digit (n : nat) : ascii :=
  match n with
  | 0 => "0" | 1 => "1" | 2 => "2" | 3 => "3" | 4 => "4" | 5 => "5"
  | 6 => "6" | 7 => "7" | 8 => "8" | 9 => "9" | 10 => "a" | 11 => "b"
  | 12 => "c" | 13 => "d" | 14 => "e" | _ => "f"
  end%char.

Definition dquote : ascii := "034"%char.

(** The escape [JSON.stringify] writes for one character of a string. *)
Definition quote_char (c : ascii) : string :=
  let n := nat_of_ascii c in
  if Nat.eqb n 34 then String "\" (String dquote EmptyString)
  else if Nat.eqb n 92 then "\\"
  else if Nat.eqb n 8 then "\b"
  else if Nat.eqb n 12 then "\f"
  else if Nat.eqb n 10 then "\n"
  else if Nat.eqb n 13 then "\r"
  else if Nat.eqb n 9 then "\t"
  else if Nat.ltb n 32 then
    String "\" (String "u" (String "0" (String "0"
      (String (hex_digit (n / 16)) (String (hex_digit (n mod 16)) EmptyString)))))
  else String c EmptyString.

Fixpoint quote_chars (s : string) : string :=
  match s with
  | EmptyString => EmptyString
  | String c r => quote_char c +:+ quote_chars r
  end.

Definition quote (s : string) : string :=
  String dquote (quote_chars s +:+ String dquote EmptyString).

(** [JSON.stringify] on a JSON value (no indentation). *)
Fixpoint JSON_stringify (v : json) : string :=
  match v with
  | JNull => "null"
  | JBool true => "true"
  | JBool false => "false"
  | JNumber lexeme => lexeme
  | JString s => quote s
  | JArray items =>
      "[" +:+ (fix go (l : list json) : string :=
                 match l with
                 | [] => EmptyString
                 | [x] => JSON_stringify x
                 | x :: l' => JSON_stringify x +:+ "," +:+ go l'
                 end) items +:+ "]"
  | JObject members =>
      "{" +:+ (fix go (l : list (string * json)) : string :=
                 match l with
                 | [] => EmptyString
                 | [(k, x)] => quote k +:+ ":" +:+ JSON_stringify x
                 | (k, x) :: l' => quote k +:+ ":" +:+ JSON_stringify x +:+ "," +:+ go l'
                 end) members +:+ "}"
  end.

(** ** Types of the component *)

Inductive Mode := edit | analyze.

Definition Mode_eqb (a b : Mode) : bool :=
  match a, b with
  | edit, edit | analyze, analyze => true
  | _, _ => false
  end.

(** The part of a DOM [File] the program reads. *)
Record File := { name : string; type : string }.

Record ImageFile := { url : string; file : File }.

Module EditedImageResult.
(** [editedUrl: string | null] and the optional [error?: string]. *)
Record t := { originalUrl : string; editedUrl : option string; error : option string }.

(** The object as [JSON.stringify] sees it: a property that was never
    set is left out, a [null] one is written. *)
Definition toJSON (r : t) : json :=
  JObject (("originalUrl", JString (originalUrl r))
           :: ("editedUrl", match editedUrl r with Some u => JString u | None => JNull end)
           :: match error r with Some m => [("error", JString m)] | None => [] end).

Definition property (k : string) (v : json) : option string :=
  match v with
  | JObject members =>
      match List.find (fun kv => String.eqb (fst kv) k) (List.rev members) with
      | Some (_, JString s) => Some s
      | _ => None
      end
  | _ => None
  end.

(** An entry restored from storage is used as an [EditedImageResult]
    without any check; this is the view of it through the three
    properties, one that does not hold a string being read as absent. *)
Definition fromJSON (v : json) : t :=
  {| originalUrl := default EmptyString (property "originalUrl" v);
     editedUrl := property "editedUrl" v;
     error := property "error" v |}.
End EditedImageResult.

Record Progress := { current : nat; total : nat }.

(** The eight [useState] cells of [App]. *)
Record State := {
  mode : Mode;
  originalImages : list ImageFile;
  editedImages : list EditedImageResult.t;
  analysisResult : option string;
  prompt : string;
  isLoading : bool;
  error : option string;
  progress : option Progress
}.

(** The state a freshly mounted component starts from. *)
Definition initialState : State :=
  {| mode := edit; originalImages := []; editedImages := []; analysisResult := None;
     prompt := EmptyString; isLoading := false; error := None; progress := None |}.

(** A call of one of the state setters. *)
Inductive Setter :=
| SetMode (m : Mode)
| SetOriginalImages (l : list ImageFile)
| SetEditedImages (l : list EditedImageResult.t)
| SetAnalysisResult (r : option string)
| SetPrompt (p : string)
| SetIsLoading (b : bool)
| SetError (e : option string)
| SetProgress (p : option Progress).

Definition apply_setter (u : Setter) (s : State) : State :=
  match u with
  | SetMode m =>
      {| mode := m; originalImages := originalImages s; editedImages := editedImages s;
         analysisResult := analysisResult s; prompt := prompt s; isLoading := isLoading s;
         error := error s; progress := progress s |}
  | SetOriginalImages l =>
      {| mode := mode s; originalImages := l; editedImages := editedImages s;
         analysisResult := analysisResult s; prompt := prompt s; isLoading := isLoading s;
         error := error s; progress := progress s |}
  | SetEditedImages l =>
      {| mode := mode s; originalImages := originalImages s; editedImages := l;
         analysisResult := analysisResult s; prompt := prompt s; isLoading := isLoading s;
         error := error s; progress := progress s |}
  | SetAnalysisResult r =>
      {| mode := mode s; originalImages := originalImages s; editedImages := editedImages s;
         analysisResult := r; prompt := prompt s; isLoading := isLoading s;
         error := error s; progress := progress s |}
  | SetPrompt p =>
      {| mode := mode s; originalImages := originalImages s; editedImages := editedImages s;
         analysisResult := analysisResult s; prompt := p; isLoading := isLoading s;
         error := error s; progress := progress s |}
  | SetIsLoading b =>
      {| mode := mode s; originalImages := originalImages s; editedImages := editedImages s;
         analysisResult := analysisResult s; prompt := prompt s; isLoading := b;
         error := error s; progress := progress s |}
  | SetError e =>
      {| mode := mode s; originalImages := originalImages s; editedImages := editedImages s;
         analysisResult := analysisResult s; prompt := prompt s; isLoading := isLoading s;
         error := e; progress := progress s |}
  | SetProgress p =>
      {| mode := mode s; originalImages := originalImages s; editedImages := editedImages s;
         analysisResult := analysisResult s; prompt := prompt s; isLoading := isLoading s;
         error := error s; progress := p |}
  end.

(** What the error banner shows: [{error && <div>...{error}...</div>}]. *)
Definition banner (s : State) : option string :=
  match error s with
  | Some m => if truthy m then Some m else None
  | None => None
  end.

(** ** The generative-AI SDK, as far as the services use it *)

Module GenAI.
Record Blob := { data : option string; mimeType : option string }.
Record Part := { inlineData : option Blob; text : option string }.
Record Content := { parts : option (list Part) }.
Record Candidate := { content : option Content }.
Inductive Modality := IMAGE | TEXT | AUDIO.
Record GenerateContentConfig := { responseModalities : list Modality }.
Record GenerateContentParameters := {
  model : string;
  contents : Content;
  config : option GenerateContentConfig
}.

Module GenerateContentResponse.
(** [text] is the accessor the analysis reads; the service returns it
    as a [string]. *)
Record t := { candidates : option (list Candidate); text : string }.
End GenerateContentResponse.
End GenAI.

(** ** The outside world *)

Inductive Operation := Edit | Analyze.

(** What the program does, in the order it does it: a setter is called;
    one of the two functions of the service is entered, with its
    arguments; the SDK is asked to generate content; the storage is read,
    written (or asked to, when it refuses), or a key is removed; a line goes
    to the console. *)
Inductive Event :=
| Update (u : Setter)
| ServiceCall (op : Operation) (base64ImageData : option string) (mimeType promptText : string)
| Request (params : GenAI.GenerateContentParameters)
| GetItem (key : string)
| SetItem (key value : string)
| RemoveItem (key : string)
| ConsoleError (text : string).

(** What the program cannot decide.  Service calls are numbered from the
    start of the session, so that two calls with the same arguments may end
    differently. *)
Record Env := {
  (** [new GoogleGenAI(...)] in the k-th service call throws this. *)
  GoogleGenAI_throws : nat -> option Thrown;
  (** How [ai.models.generateContent] ends in the k-th service call. *)
  generateContent_ends :
    nat -> GenAI.GenerateContentParameters -> outcome GenAI.GenerateContentResponse.t;
  (** [localStorage.setItem(key, value)] throws this (quota, disabled storage). *)
  setItem_throws : string -> string -> option Thrown;
  (** [JSON.parse]; [Throw] for a text that is not JSON. *)
  JSON_parse : string -> outcome json
}.

Record World := {
  ui : State;
  localStorage : gmap string string;
  serviceCalls : nat;
  log : list Event
}.

(** ** Programs: state and exceptions *)

Definition M (A : Type) : Type := World -> outcome A * World.

Definition ret {A} (a : A) : M A := fun w => (Return a, w).

Definition throw {A} (e : Thrown) : M A := fun w => (Throw e, w).

Definition bind {A B} (m : M A) (k : A -> M B) : M B :=
  fun w =>
    match m w with
    | (Return a, w') => k a w'
    | (Throw e, w') => (Throw e, w')
    end.

Declare Scope js_scope.
Delimit Scope js_scope with js.
Notation "x <- m ;; k" := (bind m (fun x => k))
  (at level 100, m at next level, right associativity) : js_scope.
Notation "m ;; k" := (bind m (fun _ => k))
  (at level 100, right associativity) : js_scope.
Open Scope js_scope.

(** [try { body } catch (e) { handler }] *)
Definition try_catch {A} (body : M A) (handler : Thrown -> M A) : M A :=
  fun w =>
    match body w with
    | (Return a, w') => (Return a, w')
    | (Throw e, w') => handler e w'
    end.

(** [try { body } catch (e) { handler } finally { cleanup }] around a local
    variable the two blocks assign as their last statement and the
    [finally] block reads: a block that throws leaves it as it was. *)
Definition try_catch_finally {L} (local : L)
    (body : M L) (handler : Thrown -> M L) (cleanup : L -> M unit) : M L :=
  fun w =>
    match try_catch body handler w with
    | (Return l, w') =>
        match cleanup l w' with
        | (Return _, w'') => (Return l, w'')
        | (Throw e, w'') => (Throw e, w'')
        end
    | (Throw e, w') =>
        match cleanup local w' with
        | (Return _, w'') => (Throw e, w'')
        | (Throw e', w'') => (Throw e', w'')
        end
    end.

Definition emit (e : Event) : M unit :=
  fun w => (Return tt, {| ui := ui w; localStorage := localStorage w;
                          serviceCalls := serviceCalls w; log := log w ++ [e] |}).

(** A setter call: the cell changes and the call is logged. *)
Definition set (u : Setter) : M unit :=
  fun w => (Return tt, {| ui := apply_setter u (ui w); localStorage := localStorage w;
                          serviceCalls := serviceCalls w; log := log w ++ [Update u] |}).

(** The pending state, as a functional update [setX(prev => ...)] sees it. *)
Definition get_ui : M State := fun w => (Return (ui w), w).

Definition console_error (text : string) : M unit := emit (ConsoleError text).

Module Storage.
Definition getItem (key : string) : M (option string) :=
  fun w => (Return (localStorage w !! key),
            {| ui := ui w; localStorage := localStorage w;
               serviceCalls := serviceCalls w; log := log w ++ [GetItem key] |}).

Definition removeItem (key : string) : M unit :=
  fun w => (Return tt,
            {| ui := ui w; localStorage := delete key (localStorage w);
               serviceCalls := serviceCalls w; log := log w ++ [RemoveItem key] |}).

Definition setItem (env : Env) (key value : string) : M unit :=
  fun w =>
    match setItem_throws env key value with
    | Some e => (Throw e, {| ui := ui w; localStorage := localStorage w;
                             serviceCalls := serviceCalls w;
                             log := log w ++ [SetItem key value] |})
    | None => (Return tt, {| ui := ui w; localStorage := <[key := value]> (localStorage w);
                             serviceCalls := serviceCalls w;
                             log := log w ++ [SetItem key value] |})
    end.
End Storage.

(** ** services/geminiService.ts *)

Module geminiService.
Section WithEnv.
Variable env : Env.

(** [new GoogleGenAI({ apiKey })]: the client of this service call,
    known by the call's number. *)
Definition new_GoogleGenAI : M nat :=
  fun w =>
    let k := serviceCalls w in
    let w' := {| ui := ui w; localStorage := localStorage w;
                 serviceCalls := S k; log := log w |} in
    match GoogleGenAI_throws env k with
    | Some e => (Throw e, w')
    | None => (Return k, w')
    end.

(** [await ai.models.generateContent(params)] *)
Definition generateContent (ai : nat) (params : GenAI.GenerateContentParameters)
  : M GenAI.GenerateContentResponse.t :=
  fun w =>
    (generateContent_ends env ai params,
     {| ui := ui w; localStorage := localStorage w;
        serviceCalls := serviceCalls w; log := log w ++ [Request params] |}).

(** The [contents] both services send: the image, then the prompt. *)
Definition image_and_prompt (base64ImageData : option string) (mimeType prompt : string)
  : GenAI.Content :=
  {| GenAI.parts := Some
       [ {| GenAI.inlineData := Some {| GenAI.data := base64ImageData;
                                        GenAI.mimeType := Some mimeType |};
            GenAI.text := None |};
         {| GenAI.inlineData := None; GenAI.text := Some prompt |} ] |}.

(** [part.inlineData?.data], when it is truthy. *)
Definition inline_data (part : GenAI.Part) : option string :=
  match GenAI.inlineData part with
  | Some blob =>
      match GenAI.data blob with
      | Some d => if truthy d then Some d else None
      | None => None
      end
  | None => None
  end.

(** [for (const part of parts) if (part.inlineData?.data) return ...] *)
Fixpoint first_inline_data (parts : list GenAI.Part) : option string :=
  match parts with
  | [] => None
  | part :: rest =>
      match inline_data part with
      | Some d => Some d
      | None => first_inline_data rest
      end
  end.

(** The image of a response: the loop above, entered when
    [response.candidates?.[0]?.content?.parts] is there. *)
Definition first_image (response : GenAI.GenerateContentResponse.t) : option string :=
  match GenAI.GenerateContentResponse.candidates response with
  | Some (candidate :: _) =>
      match GenAI.content candidate with
      | Some c =>
          match GenAI.parts c with
          | Some ps => first_inline_data ps
          | None => None
          end
      | None => None
      end
  | _ => None
  end.

Definition editImageWithPrompt (base64ImageData : option string) (mimeType prompt : string)
  : M string :=
  emit (ServiceCall Edit base64ImageData mimeType prompt) ;;
  ai <- new_GoogleGenAI ;;
  try_catch
    (response <- generateContent ai
       {| GenAI.model := "gemini-2.5-flash-image";
          GenAI.contents := image_and_prompt base64ImageData mimeType prompt;
          GenAI.config := Some {| GenAI.responseModalities := [GenAI.IMAGE] |} |} ;;
     match first_image response with
     | Some d => ret d
     | None => throw (ErrorObject "No image was generated in the API response.")
     end)
    (fun error =>
       console_error "Error calling Gemini API for editing:" ;;
       throw (ErrorObject "Failed to communicate with the AI model. Please check your API key and network connection.")).

Definition analyzeImageWithPrompt (base64ImageData : option string) (mimeType prompt : string)
  : M string :=
  emit (ServiceCall Analyze base64ImageData mimeType prompt) ;;
  ai <- new_GoogleGenAI ;;
  try_catch
    (response <- generateContent ai
       {| GenAI.model := "gemini-2.5-flash";
          GenAI.contents := image_and_prompt base64ImageData mimeType prompt;
          GenAI.config := None |} ;;
     ret (GenAI.GenerateContentResponse.text response))
    (fun error =>
       console_error "Error calling Gemini API for analysis:" ;;
       throw (ErrorObject "Failed to communicate with the AI model for analysis. Please check your API key and network connection.")).
End WithEnv.
End geminiService.

(** ** The App component *)

(** [l.filter((_, index) => keep(index))], counting from [i]. *)
Fixpoint filter_index {A} (keep : nat -> bool) (i : nat) (l : list A) : list A :=
  match l with
  | [] => []
  | x :: l' => if keep i then x :: filter_index keep (S i) l' else filter_index keep (S i) l'
  end.

(** [err instanceof Error ? err.message : fallback] *)
Definition message_or (fallback : string) (err : Thrown) : string :=
  match err with
  | ErrorObject message => message
  | NonError _ => fallback
  end.

(** Reading a property of [undefined]. *)
Definition TypeError_undefined : Thrown :=
  ErrorObject "Cannot read properties of undefined (reading 'url')".

Module App.
Definition LOCAL_STORAGE_KEY : string := "ai-photo-editor-last-session".

Section WithEnv.
Variable env : Env.

(** [JSON.parse(text)]: it touches nothing, and may throw. *)
Definition parse (text : string) : M json := fun w => (JSON_parse env text, w).

(** The effect run once when the component is mounted. *)
Definition loadSession : M unit :=
  try_catch
    (savedData <- Storage.getItem LOCAL_STORAGE_KEY ;;
     match savedData with
     | Some text =>
         if truthy text then
           parsedImages <- parse text ;;
           match parsedImages with
           | JArray items =>
               set (SetMode edit) ;;
               set (SetEditedImages (List.map EditedImageResult.fromJSON items))
           | _ => ret tt
           end
         else ret tt
     | None => ret tt
     end)
    (fun err =>
       console_error "Failed to load saved images:" ;;
       Storage.removeItem LOCAL_STORAGE_KEY).

Definition handleModeChange (newMode : Mode) : M unit :=
  set (SetMode newMode) ;;
  set (SetOriginalImages []) ;;
  set (SetEditedImages []) ;;
  set (SetAnalysisResult None) ;;
  set (SetPrompt EmptyString) ;;
  set (SetError None) ;;
  set (SetProgress None) ;;
  if Mode_eqb newMode analyze then Storage.removeItem LOCAL_STORAGE_KEY else ret tt.

(** The handler closes over the [mode] of the state it is called in. *)
Definition handleImagesSelect (newFiles : list ImageFile) : M unit :=
  closure <- get_ui ;;
  (if Mode_eqb (mode closure) analyze then
     set (SetOriginalImages (firstn 1 newFiles))
   else
     prev <- get_ui ;;
     set (SetOriginalImages (originalImages prev ++ newFiles))) ;;
  set (SetEditedImages []) ;;
  set (SetAnalysisResult None) ;;
  set (SetError None) ;;
  Storage.removeItem LOCAL_STORAGE_KEY.

Definition handleRemoveImage (indexToRemove : nat) : M unit :=
  prev <- get_ui ;;
  set (SetOriginalImages
         (filter_index (fun index => negb (Nat.eqb index indexToRemove)) 0
            (originalImages prev))) ;;
  set (SetEditedImages []) ;;
  set (SetAnalysisResult None) ;;
  Storage.removeItem LOCAL_STORAGE_KEY.

Definition handleClearImages : M unit :=
  set (SetOriginalImages []) ;;
  set (SetEditedImages []) ;;
  set (SetAnalysisResult None) ;;
  Storage.removeItem LOCAL_STORAGE_KEY.

(** [image.url.split(',')[1]]: what follows the first comma, up to the
    next one; [undefined] when the URL has no comma. *)
Definition base64_of (image : ImageFile) : option string :=
  split "," (url image) !! 1.

(** One pass of the body of the [for] loop of [handleGenerate], for
    index [i] and the results pushed so far. *)
Definition process_image (originalImages : list ImageFile) (prompt : string)
    (i : nat) (results : list EditedImageResult.t) : M (list EditedImageResult.t) :=
  try_catch_finally results
    (match originalImages !! i with
     | Some image =>
         let base64Data := base64_of image in
         let mimeType := type (file image) in
         generatedBase64 <- geminiService.editImageWithPrompt env base64Data mimeType prompt ;;
         ret (results ++
                [ {| EditedImageResult.originalUrl := url image;
                     EditedImageResult.editedUrl :=
                       Some ("data:" +:+ mimeType +:+ ";base64," +:+ generatedBase64);
                     EditedImageResult.error := None |} ])
     | None => throw TypeError_undefined
     end)
    (fun err =>
       console_error ("Failed to process image " +:+ pretty (i + 1) +:+ ":") ;;
       match originalImages !! i with
       | Some image =>
           ret (results ++
                  [ {| EditedImageResult.originalUrl := url image;
                       EditedImageResult.editedUrl := None;
                       EditedImageResult.error :=
                         Some (message_or "An unknown error occurred." err) |} ])
       | None => throw TypeError_undefined
       end)
    (fun results =>
       set (SetProgress (Some {| current := i + 1; total := length originalImages |})) ;;
       set (SetEditedImages results)).

(** [for (let i = ...; i < originalImages.length; i++)] with [remaining]
    passes to go. *)
Fixpoint for_each_image (originalImages : list ImageFile) (prompt : string)
    (remaining i : nat) (results : list EditedImageResult.t)
  : M (list EditedImageResult.t) :=
  match remaining with
  | 0 => ret results
  | S remaining' =>
      results' <- process_image originalImages prompt i results ;;
      for_each_image originalImages prompt remaining' (S i) results'
  end.

Definition save_results (results : list EditedImageResult.t) : M unit :=
  try_catch
    (if Nat.ltb 0 (length results) then
       Storage.setItem env LOCAL_STORAGE_KEY
         (JSON_stringify (JArray (List.map EditedImageResult.toJSON results)))
     else ret tt)
    (fun err => console_error "Failed to save results to localStorage.").

Definition analyze_first (originalImages : list ImageFile) (prompt : string) : M unit :=
  try_catch
    (match originalImages !! 0 with
     | Some image =>
         let base64Data := base64_of image in
         let mimeType := type (file image) in
         textResult <- geminiService.analyzeImageWithPrompt env base64Data mimeType prompt ;;
         set (SetAnalysisResult (Some textResult))
     | None => throw TypeError_undefined
     end)
    (fun err =>
       set (SetError (Some (message_or "An unknown error occurred during analysis." err)))).

(** The handler closes over [originalImages], [prompt] and [mode] of the
    state it is called in. *)
Definition handleGenerate : M unit :=
  closure <- get_ui ;;
  let originalImages := originalImages closure in
  let prompt := prompt closure in
  let mode := mode closure in
  if Nat.eqb (length originalImages) 0 || negb (truthy prompt) then
    set (SetError (Some "Please upload an image and provide a prompt."))
  else
    set (SetIsLoading true) ;;
    set (SetError None) ;;
    set (SetEditedImages []) ;;
    set (SetAnalysisResult None) ;;
    set (SetProgress (Some {| current := 0; total := length originalImages |})) ;;
    (match mode with
     | edit =>
         results <- for_each_image originalImages prompt (length originalImages) 0 [] ;;
         save_results results
     | analyze => analyze_first originalImages prompt
     end) ;;
    set (SetIsLoading false).
End WithEnv.
End App.

(** ** A browser to run the program in

    [JSON.parse] as a recursive-descent reader of the JSON grammar, for
    running the program on concrete stored texts.  The theorems below hold
    for every [JSON_parse]; only the worked examples use this one.  An
    escape [\uXXXX] is kept as it is written. *)

Module Browser.
Definition is_ws (c : ascii) : bool :=
  let n := nat_of_ascii c in
  Nat.eqb n 32 || Nat.eqb n 9 || Nat.eqb n 10 || Nat.eqb n 13.

Definition is_digit (c : ascii) : bool :=
  let n := nat_of_ascii c in Nat.leb 48 n && Nat.leb n 57.

Definition is_hex (c : ascii) : bool :=
  let n := nat_of_ascii c in
  is_digit c || (Nat.leb 65 n && Nat.leb n 70) || (Nat.leb 97 n && Nat.leb n 102).

Fixpoint skip_ws (s : string) : string :=
  match s with
  | String c r => if is_ws c then skip_ws r else s
  | EmptyString => s
  end.

(** The digits at the head of [s], and what follows them. *)
Fixpoint digits (s : string) : string * string :=
  match s with
  | String c r => if is_digit c then let (d, r') := digits r in (String c d, r') else (EmptyString, s)
  | EmptyString => (EmptyString, s)
  end.

Definition nonempty_digits (s : string) : option (string * string) :=
  match digits s with
  | (EmptyString, _) => None
  | (d, r) => Some (d, r)
  end.

(** A JSON number: an optional minus, an integer part without a leading
    zero, an optional fraction, an optional exponent. *)
Definition number (s : string) : option (string * string) :=
  let (sign, s1) := match s with
                    | String "-" r => ("-"%string, r)
                    | _ => (EmptyString, s)
                    end in
  '(ipart, s2) ← match s1 with
                  | String "0" r => Some ("0"%string, r)
                  | _ => nonempty_digits s1
                  end;
  '(fpart, s3) ← match s2 with
                  | String "." r =>
                      '(d, r') ← nonempty_digits r; Some (("." +:+ d)%string, r')
                  | _ => Some (EmptyString, s2)
                  end;
  '(epart, s4) ← match s3 with
                  | String e r =>
                      if Ascii.eqb e "e" || Ascii.eqb e "E" then
                        let (esign, r1) := match r with
                                           | String "+" r' => ("+"%string, r')
                                           | String "-" r' => ("-"%string, r')
                                           | _ => (EmptyString, r)
                                           end in
                        '(d, r') ← nonempty_digits r1;
                        Some ((String e esign +:+ d)%string, r')
                      else Some (EmptyString, s3)
                  | EmptyString => Some (EmptyString, s3)
                  end;
  Some ((sign +:+ ipart +:+ fpart +:+ epart)%string, s4).

(** The characters of a string literal after its opening quote. *)
Fixpoint string_chars (s : string) : option (string * string) :=
  match s with
  | EmptyString => None
  | String c r =>
      if Ascii.eqb c dquote then Some (EmptyString, r)
      else if Nat.ltb (nat_of_ascii c) 32 then None
      else if Ascii.eqb c "\" then
        match r with
        | String e r' =>
            let simple (d : ascii) :=
              '(t, r'') ← string_chars r'; Some (String d t, r'') in
            if Ascii.eqb e dquote then simple dquote
            else if Ascii.eqb e "\" then simple "\"%char
            else if Ascii.eqb e "/" then simple "/"%char
            else if Ascii.eqb e "b" then simple "008"%char
            else if Ascii.eqb e "f" then simple "012"%char
            else if Ascii.eqb e "n" then simple "010"%char
            else if Ascii.eqb e "r" then simple "013"%char
            else if Ascii.eqb e "t" then simple "009"%char
            else if Ascii.eqb e "u" then
              match r' with
              | String h1 (String h2 (String h3 (String h4 _))) =>
                  if is_hex h1 && is_hex h2 && is_hex h3 && is_hex h4 then
                    '(t, r'') ← string_chars r'; Some (String "\" (String "u" t), r'')
                  else None
              | _ => None
              end
            else None
        | EmptyString => None
        end
      else '(t, r') ← string_chars r; Some (String c t, r')
  end.

Definition literal (word : string) (v : json) (s : string) : option (json * string) :=
  if String.prefix word s
  then Some (v, String.substring (String.length word) (String.length s - String.length word) s)
  else None.

Fixpoint value (fuel : nat) (s : string) : option (json * string) :=
  match fuel with
  | 0 => None
  | S fuel' =>
      match skip_ws s with
      | String "n" _ => literal "null" JNull (skip_ws s)
      | String "t" _ => literal "true" (JBool true) (skip_ws s)
      | String "f" _ => literal "false" (JBool false) (skip_ws s)
      | String "[" r =>
          match skip_ws r with
          | String "]" r' => Some (JArray [], r')
          | _ => '(items, r') ← elements fuel' r; Some (JArray items, r')
          end
      | String "{" r =>
          match skip_ws r with
          | String "}" r' => Some (JObject [], r')
          | _ => '(ms, r') ← members fuel' r; Some (JObject ms, r')
          end
      | String c r =>
          if Ascii.eqb c dquote then '(t, r') ← string_chars r; Some (JString t, r')
          else '(n, r') ← number (String c r); Some (JNumber n, r')
      | EmptyString => None
      end
  end
with elements (fuel : nat) (s : string) : option (list json * string) :=
  match fuel with
  | 0 => None
  | S fuel' =>
      '(v, r) ← value fuel' s;
      match skip_ws r with
      | String "," r' => '(vs, r'') ← elements fuel' r'; Some (v :: vs, r'')
      | String "]" r' => Some ([v], r')
      | _ => None
      end
  end
with members (fuel : nat) (s : string) : option (list (string * json) * string) :=
  match fuel with
  | 0 => None
  | S fuel' =>
      match skip_ws s with
      | String c r =>
          if Ascii.eqb c dquote then
            '(k, r1) ← string_chars r;
            match skip_ws r1 with
            | String ":" r2 =>
                '(v, r3) ← value fuel' r2;
                match skip_ws r3 with
                | String "," r4 => '(ms, r5) ← members fuel' r4; Some ((k, v) :: ms, r5)
                | String "}" r4 => Some ([(k, v)], r4)
                | _ => None
                end
            | _ => None
            end
          else None
      | EmptyString => None
      end
  end.

Definition SyntaxError : Thrown := ErrorObject "Unexpected token in JSON".

Definition parse (text : string) : outcome json :=
  match value (2 * String.length text + 2) text with
  | Some (v, rest) =>
      match skip_ws rest with
      | EmptyString => Return v
      | _ => Throw SyntaxError
      end
  | None => Throw SyntaxError
  end.

(** A browser whose storage accepts every write; the SDK is given. *)
Definition env (construct : nat -> option Thrown)
    (respond : nat -> GenAI.GenerateContentParameters ->
               outcome GenAI.GenerateContentResponse.t) : Env :=
  {| GoogleGenAI_throws := construct;
     generateContent_ends := respond;
     setItem_throws := fun _ _ => None;
     JSON_parse := parse |}.

(** The same browser with its storage full. *)
Definition env_storage_full (construct : nat -> option Thrown)
    (respond : nat -> GenAI.GenerateContentParameters ->
               outcome GenAI.GenerateContentResponse.t) : Env :=
  {| GoogleGenAI_throws := construct;
     generateContent_ends := respond;
     setItem_throws := fun _ _ => Some (NonError "QuotaExceededError");
     JSON_parse := parse |}.
End Browser.

(** ** Reading a run *)

Definition result {A} (m : M A) (w : World) : outcome A := fst (m w).
Definition run {A} (m : M A) (w : World) : World := snd (m w).

(** What was logged between two worlds of one run. *)
Definition events_since (w w' : World) : list Event :=
  drop (length (log w)) (log w').

Definition setter_of (e : Event) : option Setter :=
  match e with Update u => Some u | _ => None end.

Definition service_call_of (e : Event)
  : option (Operation * option string * string * string) :=
  match e with
  | ServiceCall op b m p => Some (op, b, m, p)
  | _ => None
  end.

Definition request_of (e : Event) : option GenAI.GenerateContentParameters :=
  match e with Request r => Some r | _ => None end.

Definition write_of (e : Event) : option (string * string) :=
  match e with SetItem k v => Some (k, v) | _ => None end.

Definition removal_of (e : Event) : option string :=
  match e with RemoveItem k => Some k | _ => None end.

Definition progress_of (e : Event) : option (option Progress) :=
  match e with Update (SetProgress p) => Some p | _ => None end.

Definition published_of (e : Event) : option (list EditedImageResult.t) :=
  match e with Update (SetEditedImages l) => Some l | _ => None end.

(** The setter calls, the service calls, the SDK requests, the storage
    writes and removals, the progress values and the published result
    lists of a log, each in order. *)
Definition updates (tr : list Event) : list Setter := omap setter_of tr.
Definition service_calls (tr : list Event) := omap service_call_of tr.
Definition requests (tr : list Event) := omap request_of tr.
Definition writes (tr : list Event) : list (string * string) := omap write_of tr.
Definition removals (tr : list Event) : list string := omap removal_of tr.
Definition progress_updates (tr : list Event) : list (option Progress) := omap progress_of tr.
Definition published (tr : list Event) : list (list EditedImageResult.t) := omap published_of tr.

(** The events that touch neither the state nor the storage and are no
    service call: an SDK request and a console line. *)
Definition quiet (e : Event) : bool :=
  match e with
  | Request _ | ConsoleError _ => true
  | _ => false
  end.

(** The state after a sequence of setter calls. *)
Definition replay (us : list Setter) (s : State) : State :=
  fold_left (fun s u => apply_setter u s) us s.

(** Exactly one of [editedUrl] and [error] is there. *)
Definition exactly_one (r : EditedImageResult.t) : bool :=
  xorb (bool_decide (is_Some (EditedImageResult.editedUrl r)))
       (bool_decide (is_Some (EditedImageResult.error r))).

(** The same as a proposition: an outcome holds either an edited image, a
    non-empty text, and no message, or a message and no edited image. *)
Definition one_of_two (outcome : EditedImageResult.t) : Prop :=
  (exists u, EditedImageResult.editedUrl outcome = Some u /\ truthy u = true /\
             EditedImageResult.error outcome = None) \/
  (exists m, EditedImageResult.editedUrl outcome = None /\
             EditedImageResult.error outcome = Some m).

(** The [ServiceCall] an image and a prompt give rise to. *)
Definition call_for (op : Operation) (prompt : string) (image : ImageFile)
  : Operation * option string * string * string :=
  (op, App.base64_of image, type (file image), prompt).

(** ** What one service call yields

    The services consult the outside only through the number of the call;
    these are their results and logs as functions of that number. *)

Section Services.
Variable env : Env.

Definition edit_request (b : option string) (m p : string) : GenAI.GenerateContentParameters :=
  {| GenAI.model := "gemini-2.5-flash-image";
     GenAI.contents := geminiService.image_and_prompt b m p;
     GenAI.config := Some {| GenAI.responseModalities := [GenAI.IMAGE] |} |}.

Definition analyze_request (b : option string) (m p : string) : GenAI.GenerateContentParameters :=
  {| GenAI.model := "gemini-2.5-flash";
     GenAI.contents := geminiService.image_and_prompt b m p;
     GenAI.config := None |}.

Definition edit_failure : Thrown :=
  ErrorObject "Failed to communicate with the AI model. Please check your API key and network connection.".

Definition analyze_failure : Thrown :=
  ErrorObject "Failed to communicate with the AI model for analysis. Please check your API key and network connection.".

Definition edit_result (k : nat) (b : option string) (m p : string) : outcome string :=
  match GoogleGenAI_throws env k with
  | Some e => Throw e
  | None =>
      match generateContent_ends env k (edit_request b m p) with
      | Return response =>
          match geminiService.first_image response with
          | Some d => Return d
          | None => Throw edit_failure
          end
      | Throw _ => Throw edit_failure
      end
  end.

Definition edit_trace (k : nat) (b : option string) (m p : string) : list Event :=
  ServiceCall Edit b m p ::
  match GoogleGenAI_throws env k with
  | Some e => []
  | None =>
      Request (edit_request b m p) ::
      match generateContent_ends env k (edit_request b m p) with
      | Return response =>
          match geminiService.first_image response with
          | Some d => []
          | None => [ConsoleError "Error calling Gemini API for editing:"]
          end
      | Throw _ => [ConsoleError "Error calling Gemini API for editing:"]
      end
  end.

Definition analyze_result (k : nat) (b : option string) (m p : string) : outcome string :=
  match GoogleGenAI_throws env k with
  | Some e => Throw e
  | None =>
      match generateContent_ends env k (analyze_request b m p) with
      | Return response => Return (GenAI.GenerateContentResponse.text response)
      | Throw _ => Throw analyze_failure
      end
  end.

Definition analyze_trace (k : nat) (b : option string) (m p : string) : list Event :=
  ServiceCall Analyze b m p ::
  match GoogleGenAI_throws env k with
  | Some e => []
  | None =>
      Request (analyze_request b m p) ::
      match generateContent_ends env k (analyze_request b m p) with
      | Return _ => []
      | Throw _ => [ConsoleError "Error calling Gemini API for analysis:"]
      end
  end.
End Services.

(** ** What a run of the edit loop yields

    The results and the log of the loop of [handleGenerate], as functions
    of the images still to process, the number [k] of the next service
    call, the loop index [i] and the results pushed so far. *)

Section Runs.
Variable env : Env.

Definition item_result (k : nat) (prompt : string) (image : ImageFile)
  : EditedImageResult.t :=
  match edit_result env k (App.base64_of image) (type (file image)) prompt with
  | Return d =>
      {| EditedImageResult.originalUrl := url image;
         EditedImageResult.editedUrl :=
           Some ("data:" +:+ type (file image) +:+ ";base64," +:+ d);
         EditedImageResult.error := None |}
  | Throw e =>
      {| EditedImageResult.originalUrl := url image;
         EditedImageResult.editedUrl := None;
         EditedImageResult.error := Some (message_or "An unknown error occurred." e) |}
  end.

Definition item_trace (k i : nat) (prompt : string) (image : ImageFile) : list Event :=
  edit_trace env k (App.base64_of image) (type (file image)) prompt ++
  match edit_result env k (App.base64_of image) (type (file image)) prompt with
  | Return _ => []
  | Throw _ => [ConsoleError ("Failed to process image " +:+ pretty (i + 1) +:+ ":")]
  end.

Fixpoint loop_results (prompt : string) (k : nat) (images : list ImageFile)
  : list EditedImageResult.t :=
  match images with
  | [] => []
  | image :: rest => item_result k prompt image :: loop_results prompt (S k) rest
  end.

Fixpoint loop_trace (prompt : string) (n k i : nat)
    (results : list EditedImageResult.t) (images : list ImageFile) : list Event :=
  match images with
  | [] => []
  | image :: rest =>
      let results' := results ++ [item_result k prompt image] in
      item_trace k i prompt image ++
      [Update (SetProgress (Some {| current := i + 1; total := n |}));
       Update (SetEditedImages results')] ++
      loop_trace prompt n (S k) (S i) results' rest
  end.

(** The setter calls [handleGenerate] starts a run with. *)
Definition prologue (n : nat) : list Event :=
  [Update (SetIsLoading true); Update (SetError None); Update (SetEditedImages []);
   Update (SetAnalysisResult None);
   Update (SetProgress (Some {| current := 0; total := n |}))].

(** The end of an edit run: the write, and the console line when the
    storage refuses it. *)
Definition save_trace (results : list EditedImageResult.t) : list Event :=
  let text := JSON_stringify (JArray (List.map EditedImageResult.toJSON results)) in
  match results with
  | [] => []
  | _ :: _ =>
      SetItem App.LOCAL_STORAGE_KEY text ::
      match setItem_throws env App.LOCAL_STORAGE_KEY text with
      | Some _ => [ConsoleError "Failed to save results to localStorage."]
      | None => []
      end
  end.

Definition save_storage (results : list EditedImageResult.t) (store : gmap string string)
  : gmap string string :=
  let text := JSON_stringify (JArray (List.map EditedImageResult.toJSON results)) in
  match results with
  | [] => store
  | _ :: _ =>
      match setItem_throws env App.LOCAL_STORAGE_KEY text with
      | Some _ => store
      | None => <[App.LOCAL_STORAGE_KEY := text]> store
      end
  end.
End Runs.

(** ** Reading the storage side of a run *)

(** The same outside, with another behaviour of [setItem]. *)
Definition with_setItem_throws (env : Env) (refuses : string -> string -> option Thrown) : Env :=
  {| GoogleGenAI_throws := GoogleGenAI_throws env;
     generateContent_ends := generateContent_ends env;
     setItem_throws := refuses;
     JSON_parse := JSON_parse env |}.

(** [handleGenerate] passes its guard and takes the edit branch. *)
Definition runs_edit (s : State) : bool :=
  Mode_eqb (mode s) edit && negb (Nat.eqb (length (originalImages s)) 0) && truthy (prompt s).

(** The text a list of results is stored as. *)
Definition snapshot_text (results : list EditedImageResult.t) : string :=
  JSON_stringify (JArray (List.map EditedImageResult.toJSON results)).

(** ** A worked scenario

    Three photos to edit with the prompt "Remove the background"; the
    second request is refused.  In analyze mode, one photo and one answer. *)

Module Scenario.
Definition photo (file_name payload : string) : ImageFile :=
  {| url := "data:image/png;base64," +:+ payload;
     file := {| name := file_name; type := "image/png" |} |}.

Definition images : list ImageFile :=
  [photo "a.png" "AAAA"; photo "b.png" "BBBB"; photo "c.png" "CCCC"].

Definition answer (picture : string) (words : string) : GenAI.GenerateContentResponse.t :=
  {| GenAI.GenerateContentResponse.candidates :=
       Some [ {| GenAI.content :=
                   Some {| GenAI.parts :=
                             Some [ {| GenAI.inlineData :=
                                         Some {| GenAI.data := Some picture;
                                                 GenAI.mimeType := Some "image/png" |};
                                       GenAI.text := None |} ] |} |} ];
     GenAI.GenerateContentResponse.text := words |}.

(** Every request is answered, except the one of call number 1. *)
Definition respond (k : nat) (params : GenAI.GenerateContentParameters)
  : outcome GenAI.GenerateContentResponse.t :=
  if Nat.eqb k 1 then Throw (ErrorObject "rate limited")
  else Return (answer "EDITED" "A red bicycle leaning against a brick wall.").

Definition env : Env := Browser.env (fun _ => None) respond.
Definition env_storage_full : Env := Browser.env_storage_full (fun _ => None) respond.

(** A request that always fails. *)
Definition env_offline : Env :=
  Browser.env (fun _ => None) (fun _ _ => Throw (NonError "network down")).

Definition state (m : Mode) (selection : list ImageFile) (text : string) : State :=
  {| mode := m; originalImages := selection; editedImages := []; analysisResult := None;
     prompt := text; isLoading := false; error := None; progress := None |}.

(** A state that shows the outcome of an earlier run and a banner. *)
Definition used_state (m : Mode) (selection : list ImageFile) (text : string) : State :=
  {| mode := m; originalImages := selection;
     editedImages := [ {| EditedImageResult.originalUrl := "data:image/png;base64,OLD";
                          EditedImageResult.editedUrl := Some "data:image/png;base64,OLDER";
                          EditedImageResult.error := None |} ];
     analysisResult := Some "An earlier answer.";
     prompt := text; isLoading := false; error := Some "An earlier failure.";
     progress := Some {| current := 1; total := 1 |} |}.

Definition world (s : State) (store : gmap string string) : World :=
  {| ui := s; localStorage := store; serviceCalls := 0; log := [] |}.

Definition stored (text : string) : gmap string string :=
  {[ App.LOCAL_STORAGE_KEY := text ]}.

(** A session from the mounting of the component: the three photos are
    selected, the prompt is typed, the edit run is made. *)
Definition after_edit_run : World :=
  run (App.handleGenerate env)
    (run (set (SetPrompt "Remove the background"))
       (run (App.handleImagesSelect images)
          (run (App.loadSession env) (world initialState ∅)))).

(** Another session: the analyzer is chosen, one photo is selected, a
    question is typed, and the analysis fails. *)
Definition after_failed_analysis : World :=
  run (App.handleGenerate env_offline)
    (run (set (SetPrompt "Describe this image in detail"))
       (run (App.handleImagesSelect [photo "bike.png" "BIKE"])
          (run (App.handleModeChange analyze)
             (run (App.loadSession env_offline) (world initialState ∅))))).
End Scenario.

(** ** The media encoder and the parts of the two panels that decide *)

(** An outcome as a program that touches nothing. *)
Definition settle {A} (o : outcome A) : M A := fun w => (o, w).

Section MediaEncoder.
(** How [reader.readAsDataURL(file)] ends for the i-th file of the list:
    [reader.result] on [onload], the event of [onerror] otherwise. *)
Variable readAsDataURL_ends : nat -> File -> outcome string.

(** [Promise.all] over the reads, in the order of the list.  When several
    reads fail, the reason kept here is the one of the first file of the
    list that fails (the source keeps the one that fails first in time). *)
Fixpoint read_from (i : nat) (files : list File) : outcome (list ImageFile) :=
  match files with
  | [] => Return []
  | file :: rest =>
      match readAsDataURL_ends i file with
      | Return result =>
          match read_from (S i) rest with
          | Return imageFiles => Return ({| url := result; file := file |} :: imageFiles)
          | Throw reason => Throw reason
          end
      | Throw reason => Throw reason
      end
  end.

Definition fileListToBase64 (files : list File) : outcome (list ImageFile) :=
  read_from 0 files.
End MediaEncoder.

Module ControlPanel.
(** [handleFileChange]: [event.target.files] may be [null]; the reads are
    awaited before [onImagesSelect] is called, and a failed read leaves the
    handler by its exception. *)
Definition handleFileChange (readAsDataURL_ends : nat -> File -> outcome string)
    (onImagesSelect : list ImageFile -> M unit) (files : option (list File)) : M unit :=
  match files with
  | Some (file :: rest) =>
      imageFiles <- settle (fileListToBase64 readAsDataURL_ends (file :: rest)) ;;
      onImagesSelect imageFiles
  | _ => ret tt
  end.



(** [disabled] of the generate button:
    [isLoading || !prompt || originalImages.length === 0]. *)
Definition generate_disabled (s : State) : bool :=
  isLoading s || negb (truthy (prompt s)) || Nat.eqb (length (originalImages s)) 0.
End ControlPanel.

Module ImageResult.
(** [parts.join(sep)] *)
Fixpoint join (sep : string) (parts : list string) : string :=
  match parts with
  | [] => EmptyString
  | [part] => part
  | part :: rest => part +:+ sep +:+ join sep rest
  end.

(** The file name [downloadImage] gives the link: the extension after the
    last dot is removed when there is a dot, an empty stem becomes [image],
    and a fixed suffix is added. *)
Definition download_name (originalFilename : string) : string :=
  let nameParts := split "." originalFilename in
  let nameParts := if Nat.ltb 1 (length nameParts) then removelast nameParts else nameParts in
  let name := join "." nameParts in
  (if truthy name then name else "image") +:+ "-edited.jpg".

(** [originalImages[index]?.file.name || 'image'] *)
Definition source_name (originalImages : list ImageFile) (index : nat) : string :=
  match originalImages !! index with
  | Some image => if truthy (name (file image)) then name (file image) else "image"
  | None => "image"
  end.

(** What a tile of the results shows: the edited picture, with the file
    name its download button gives, or the failure with the message of the
    item. *)
Inductive Card :=
| EditedPicture (src : string) (download : string)
| GenerationFailed (message : option string).

Definition EditResultCard (originalImages : list ImageFile)
    (item : EditedImageResult.t) (index : nat) : Card :=
  match EditedImageResult.editedUrl item with
  | Some editedUrl =>
      if truthy editedUrl
      then EditedPicture editedUrl (download_name (source_name originalImages index))
      else GenerationFailed (EditedImageResult.error item)
  | None => GenerationFailed (EditedImageResult.error item)
  end.

(** [editedImages.map((item, index) => <EditResultCard .../>)] *)
Fixpoint cards_from (originalImages : list ImageFile) (index : nat)
    (items : list EditedImageResult.t) : list Card :=
  match items with
  | [] => []
  | item :: rest =>
      EditResultCard originalImages item index :: cards_from originalImages (S index) rest
  end.

(** The three blocks of the panel outside a run: the hint shown when there
    is nothing else, the results with the progress of their heading, the
    analysis with the picture it is about and its text. *)
Record Panels := {
  hint : option string;
  results : option (option Progress * list Card);
  analysis : option (string * string)
}.

Inductive View :=
| EditModeSkeleton (tiles : nat)
| Analyzing (picture : string)
| Shown (panels : Panels).

(** Truthiness of [string | null]. *)
Definition truthy_or_null (o : option string) : bool :=
  match o with Some text => truthy text | None => false end.

(** [originalImages[0].url]: reading it throws when there is no image. *)
Definition first_url (originalImages : list ImageFile) : outcome string :=
  match originalImages !! 0 with
  | Some image => Return (url image)
  | None => Throw TypeError_undefined
  end.

(** The body of the [ImageResult] component, on the cells it is given. *)
Definition render (s : State) : outcome View :=
  let hasEditResults := Nat.ltb 0 (length (editedImages s)) in
  let hasAnalysisResult :=
    truthy_or_null (analysisResult s) ||
    (Mode_eqb (mode s) analyze && Nat.ltb 0 (length (originalImages s)) && negb (isLoading s)) in
  let hasAnyContent := hasEditResults || hasAnalysisResult in
  if isLoading s && Mode_eqb (mode s) edit then
    Return (EditModeSkeleton (match progress s with Some p => total p | None => 4 end))
  else if isLoading s && Mode_eqb (mode s) analyze && Nat.ltb 0 (length (originalImages s)) then
    match first_url (originalImages s) with
    | Return picture => Return (Analyzing picture)
    | Throw e => Throw e
    end
  else
    let hint :=
      if negb hasAnyContent then
        Some (match mode s with
              | edit => "Upload images and describe the changes."
              | analyze => "Upload an image and ask a question."
              end)
      else None in
    let results :=
      if Mode_eqb (mode s) edit && hasEditResults
      then Some (progress s, cards_from (originalImages s) 0 (editedImages s))
      else None in
    if Mode_eqb (mode s) analyze && hasAnalysisResult then
      match first_url (originalImages s) with
      | Return picture =>
          Return (Shown {| hint := hint; results := results;
                           analysis :=
                             Some (picture,
                                   match analysisResult s with
                                   | Some text => if truthy text then text
                                                  else "Analysis will appear here."
                                   | None => "Analysis will appear here."
                                   end) |})
      | Throw e => Throw e
      end
    else Return (Shown {| hint := hint; results := results; analysis := None |}).
End ImageResult.

(** ** Sessions

    What the user can make the component do, one handler at a time, from
    the mounting of the component on. *)



(** The component once mounted over a storage: the initial cells, then the
    session-restoring effect. *)
Definition mounted (env : Env) (store : gmap string string) : World :=
  run (App.loadSession env)
    {| ui := initialState; localStorage := store; serviceCalls := 0; log := [] |}.



(** The setter calls a run may make between its first and its last one. *)
Definition inner_setter (u : Setter) : bool :=
  match u with
  | SetError _ | SetEditedImages _ | SetAnalysisResult _ | SetProgress _ => true
  | SetMode _ | SetOriginalImages _ | SetPrompt _ | SetIsLoading _ => false
  end.

(** [s.includes(c)] for one character. *)
Fixpoint occurs (c : ascii) (s : string) : bool :=
  match s with
  | EmptyString => false
  | String c' r => Ascii.eqb c' c || occurs c r
  end.

(** The setter calls between the first and the last one of a run over [n]
    images: none touches the mode, the selection, the prompt or the run
    state, and a progress that is set has total [n]. *)
Definition steady (n : nat) (u : Setter) : bool :=
  match u with
  | SetProgress (Some p) => Nat.eqb (total p) n
  | SetProgress None => false
  | u => inner_setter u
  end.

(** * Worked examples *)

Example split_data_url :
  split "," "data:image/png;base64,AAAA" = ["data:image/png;base64"; "AAAA"].
Proof. reflexivity. Qed.

Example split_without_comma : split "," "data:" !! 1 = None.
Proof. reflexivity. Qed.

Example split_keeps_empty_pieces : split "," "a,,b," = ["a"; ""; "b"; ""].
Proof. reflexivity. Qed.

Example parse_empty_object : Browser.parse "{}" = Return (JObject []).
Proof. vm_compute. reflexivity. Qed.

Example parse_nested_arrays :
  Browser.parse " [1, [true, null], -2.5e3 ] "
  = Return (JArray [JNumber "1"; JArray [JBool true; JNull]; JNumber "-2.5e3"]).
Proof. vm_compute. reflexivity. Qed.

Example parse_trailing_comma : Browser.parse "[1,]" = Throw Browser.SyntaxError.
Proof. vm_compute. reflexivity. Qed.

Example parse_leading_zero : Browser.parse "01" = Throw Browser.SyntaxError.
Proof. vm_compute. reflexivity. Qed.

(** The scenario of three photos: the second outcome carries the fixed
    message of the service, not the one of the SDK. *)
Example scenario_outcomes :
  editedImages (ui Scenario.after_edit_run) =
    [ {| EditedImageResult.originalUrl := "data:image/png;base64,AAAA";
         EditedImageResult.editedUrl := Some "data:image/png;base64,EDITED";
         EditedImageResult.error := None |};
      {| EditedImageResult.originalUrl := "data:image/png;base64,BBBB";
         EditedImageResult.editedUrl := None;
         EditedImageResult.error :=
           Some "Failed to communicate with the AI model. Please check your API key and network connection." |};
      {| EditedImageResult.originalUrl := "data:image/png;base64,CCCC";
         EditedImageResult.editedUrl := Some "data:image/png;base64,EDITED";
         EditedImageResult.error := None |} ].
Proof. vm_compute. reflexivity. Qed.

(** What that run stored is read back as the same outcomes when the
    component is mounted again. *)
Example scenario_restored :
  let w := run (App.loadSession Scenario.env)
             (Scenario.world initialState (localStorage Scenario.after_edit_run)) in
  editedImages (ui w) = editedImages (ui Scenario.after_edit_run) /\
  mode (ui w) = edit.
Proof. vm_compute. split; reflexivity. Qed.

(** * Properties *)

(** ** Small facts about strings and lists *)

Lemma truthy_true (s : string) : s <> EmptyString -> truthy s = true.
Proof. destruct s; [congruence | reflexivity]. Qed.

Lemma map_eq_lookup {A B C} (f : A -> C) (g : B -> C) (l1 : list A) :
  forall (l2 : list B),
    List.map f l1 = List.map g l2 ->
    forall i b, l2 !! i = Some b -> exists a, l1 !! i = Some a /\ f a = g b.
Proof.
  induction l1 as [|a l1 IH]; intros [|b' l2] E i b Hi; simpl in E; try discriminate.
  injection E as E1 E2. destruct i as [|i]; simpl in Hi.
  - injection Hi as <-. exists a. split; [reflexivity | assumption].
  - apply (IH l2 E2 i b Hi).
Qed.

Lemma lookup_progress_seq (n a len i : nat) (p : Progress) :
  List.map (fun j => Some {| current := j; total := n |}) (seq a len) !! i = Some (Some p) ->
  current p = a + i /\ total p = n.
Proof.
  revert a i. induction len as [|len IH]; intros a i; simpl; [discriminate|].
  destruct i as [|i]; cbn.
  - intros [= <-]. cbn. lia.
  - intros H. apply IH in H. lia.
Qed.

(** ** Logs and replay *)

Lemma events_since_app w w' tr : log w' = log w ++ tr -> events_since w w' = tr.
Proof. unfold events_since; intros ->; apply drop_app_length. Qed.

Lemma replay_app us vs s : replay (us ++ vs) s = replay vs (replay us s).
Proof. apply fold_left_app. Qed.

Lemma updates_app a b : updates (a ++ b) = updates a ++ updates b.
Proof. apply omap_app. Qed.

Lemma service_calls_app a b : service_calls (a ++ b) = service_calls a ++ service_calls b.
Proof. apply omap_app. Qed.

Lemma requests_app a b : requests (a ++ b) = requests a ++ requests b.
Proof. apply omap_app. Qed.

Lemma writes_app a b : writes (a ++ b) = writes a ++ writes b.
Proof. apply omap_app. Qed.

Lemma progress_updates_app a b :
  progress_updates (a ++ b) = progress_updates a ++ progress_updates b.
Proof. apply omap_app. Qed.

Lemma published_app a b : published (a ++ b) = published a ++ published b.
Proof. apply omap_app. Qed.

Create Rewrite HintDb log.
#[local] Hint Rewrite updates_app service_calls_app requests_app writes_app
  progress_updates_app published_app : log.

Lemma world_eta w :
  {| ui := ui w; localStorage := localStorage w; serviceCalls := serviceCalls w; log := log w |} = w.
Proof. destruct w; reflexivity. Qed.

(** A projection that sees no quiet event sees nothing in a quiet log. *)
Lemma omap_quiet {A} (f : Event -> option A) (q : list Event) :
  (forall e, quiet e = true -> f e = None) ->
  Forall (fun e => quiet e = true) q ->
  omap f q = [].
Proof.
  intros Hf. induction 1 as [|e q He _ IH]; [reflexivity|].
  simpl. now rewrite (Hf e He).
Qed.

Section Quiet.
Variable q : list Event.
Hypothesis Hq : Forall (fun e => quiet e = true) q.

Lemma updates_quiet : updates q = [].
Proof. apply omap_quiet; [intros []; (discriminate || reflexivity) | exact Hq]. Qed.

Lemma service_calls_quiet : service_calls q = [].
Proof. apply omap_quiet; [intros []; (discriminate || reflexivity) | exact Hq]. Qed.

Lemma writes_quiet : writes q = [].
Proof. apply omap_quiet; [intros []; (discriminate || reflexivity) | exact Hq]. Qed.

Lemma progress_updates_quiet : progress_updates q = [].
Proof. apply omap_quiet; [intros []; (discriminate || reflexivity) | exact Hq]. Qed.

Lemma published_quiet : published q = [].
Proof. apply omap_quiet; [intros []; (discriminate || reflexivity) | exact Hq]. Qed.
End Quiet.

(** Computes a replayed state down to its eight cells. *)
Ltac ui_simpl :=
  unfold replay, prologue, updates;
  cbn [omap list_omap setter_of fold_left apply_setter
       mode originalImages editedImages analysisResult prompt isLoading error progress
       app Nat.add].

(** Brings the log of a run into the form [log w ++ tr] and reads [tr]. *)
Ltac read_trace :=
  unfold run; cbn [snd log];
  erewrite events_since_app; [| rewrite <- ?app_assoc; reflexivity].

(** ** The services *)

Section ServiceFacts.
Variable env : Env.

Lemma editImageWithPrompt_eq b m p w :
  geminiService.editImageWithPrompt env b m p w =
    (edit_result env (serviceCalls w) b m p,
     {| ui := ui w; localStorage := localStorage w;
        serviceCalls := S (serviceCalls w);
        log := log w ++ edit_trace env (serviceCalls w) b m p |}).
Proof.
  unfold geminiService.editImageWithPrompt, edit_result, edit_trace, bind, try_catch,
    emit, geminiService.new_GoogleGenAI, geminiService.generateContent,
    console_error, emit, throw, ret; simpl.
  fold (edit_request b m p).
  destruct (GoogleGenAI_throws env (serviceCalls w)) as [e|]; simpl.
  { reflexivity. }
  destruct (generateContent_ends env (serviceCalls w) (edit_request b m p)) as [resp|e]; simpl.
  - destruct (geminiService.first_image resp); simpl;
      rewrite <- ?app_assoc; reflexivity.
  - rewrite <- !app_assoc; reflexivity.
Qed.

Lemma analyzeImageWithPrompt_eq b m p w :
  geminiService.analyzeImageWithPrompt env b m p w =
    (analyze_result env (serviceCalls w) b m p,
     {| ui := ui w; localStorage := localStorage w;
        serviceCalls := S (serviceCalls w);
        log := log w ++ analyze_trace env (serviceCalls w) b m p |}).
Proof.
  unfold geminiService.analyzeImageWithPrompt, analyze_result, analyze_trace, bind,
    try_catch, emit, geminiService.new_GoogleGenAI, geminiService.generateContent,
    console_error, emit, throw, ret; simpl.
  fold (analyze_request b m p).
  destruct (GoogleGenAI_throws env (serviceCalls w)) as [e|]; simpl.
  { reflexivity. }
  destruct (generateContent_ends env (serviceCalls w) (analyze_request b m p)) as [resp|e];
    simpl; rewrite <- ?app_assoc; reflexivity.
Qed.

(** The log of a service call: the call, then quiet events. *)
Lemma edit_trace_shape k b m p :
  exists q, edit_trace env k b m p = ServiceCall Edit b m p :: q /\
            Forall (fun e => quiet e = true) q.
Proof.
  unfold edit_trace. eexists; split; [reflexivity|].
  destruct (GoogleGenAI_throws env k); [constructor|].
  destruct (generateContent_ends env k _) as [r|]; [destruct (geminiService.first_image r)|];
    repeat constructor.
Qed.

Lemma analyze_trace_shape k b m p :
  exists q, analyze_trace env k b m p = ServiceCall Analyze b m p :: q /\
            Forall (fun e => quiet e = true) q.
Proof.
  unfold analyze_trace. eexists; split; [reflexivity|].
  destruct (GoogleGenAI_throws env k); [constructor|].
  destruct (generateContent_ends env k _); repeat constructor.
Qed.

Lemma requests_analyze_trace k b m p :
  requests (analyze_trace env k b m p) =
    match GoogleGenAI_throws env k with
    | Some _ => []
    | None => [analyze_request b m p]
    end.
Proof.
  unfold analyze_trace. destruct (GoogleGenAI_throws env k); [reflexivity|].
  destruct (generateContent_ends env k _); reflexivity.
Qed.

(** An edit that succeeds returns a non-empty text. *)
Lemma edit_result_truthy k b m p d : edit_result env k b m p = Return d -> truthy d = true.
Proof.
  unfold edit_result.
  destruct (GoogleGenAI_throws env k); [discriminate|].
  destruct (generateContent_ends env k (edit_request b m p)) as [resp|]; [|discriminate].
  unfold geminiService.first_image.
  destruct (GenAI.GenerateContentResponse.candidates resp) as [[|c ?]|]; try discriminate.
  destruct (GenAI.content c) as [ct|]; try discriminate.
  destruct (GenAI.parts ct) as [ps|]; try discriminate.
  induction ps as [|part ps IH]; simpl; [discriminate|].
  unfold geminiService.inline_data at 1.
  destruct (GenAI.inlineData part) as [blob|]; [|exact IH].
  destruct (GenAI.data blob) as [d'|]; [|exact IH].
  destruct (truthy d') eqn:T; [|exact IH].
  intros [= <-]; exact T.
Qed.

(** A failed request always surfaces as the fixed message of the service. *)
Lemma edit_result_request_failed k b m p err :
  GoogleGenAI_throws env k = None ->
  generateContent_ends env k (edit_request b m p) = Throw err ->
  edit_result env k b m p = Throw edit_failure.
Proof. unfold edit_result. now intros -> ->. Qed.
End ServiceFacts.

(** ** The edit loop *)

Section RunFacts.
Variable env : Env.

Lemma item_trace_shape k i p image :
  exists q, item_trace env k i p image
            = ServiceCall Edit (App.base64_of image) (type (file image)) p :: q /\
            Forall (fun e => quiet e = true) q.
Proof.
  unfold item_trace.
  destruct (edit_trace_shape env k (App.base64_of image) (type (file image)) p)
    as (q & -> & Hq).
  eexists; split; [rewrite <- app_comm_cons; reflexivity|].
  apply Forall_app; split; [exact Hq|].
  destruct (edit_result env k _ _ p); repeat constructor.
Qed.

Lemma updates_item_trace k i p image : updates (item_trace env k i p image) = [].
Proof. destruct (item_trace_shape k i p image) as (q & -> & Hq). exact (updates_quiet q Hq). Qed.

Lemma writes_item_trace k i p image : writes (item_trace env k i p image) = [].
Proof. destruct (item_trace_shape k i p image) as (q & -> & Hq). exact (writes_quiet q Hq). Qed.

Lemma progress_updates_item_trace k i p image :
  progress_updates (item_trace env k i p image) = [].
Proof.
  destruct (item_trace_shape k i p image) as (q & -> & Hq). exact (progress_updates_quiet q Hq).
Qed.

Lemma published_item_trace k i p image : published (item_trace env k i p image) = [].
Proof. destruct (item_trace_shape k i p image) as (q & -> & Hq). exact (published_quiet q Hq). Qed.

Lemma service_calls_item_trace k i p image :
  service_calls (item_trace env k i p image) = [call_for Edit p image].
Proof.
  destruct (item_trace_shape k i p image) as (q & -> & Hq).
  change (service_calls (ServiceCall Edit (App.base64_of image) (type (file image)) p :: q))
    with (call_for Edit p image :: service_calls q).
  now rewrite service_calls_quiet.
Qed.

Lemma process_image_eq imgs p i results w image :
  imgs !! i = Some image ->
  App.process_image env imgs p i results w =
    (let results' := results ++ [item_result env (serviceCalls w) p image] in
     (Return results',
      {| ui := apply_setter (SetEditedImages results')
                 (apply_setter (SetProgress (Some {| current := i + 1; total := length imgs |}))
                    (ui w));
         localStorage := localStorage w;
         serviceCalls := S (serviceCalls w);
         log := log w ++ item_trace env (serviceCalls w) i p image ++
                [Update (SetProgress (Some {| current := i + 1; total := length imgs |}));
                 Update (SetEditedImages results')] |})).
Proof.
  intros Hi.
  unfold App.process_image, try_catch_finally, try_catch, bind. rewrite Hi.
  rewrite editImageWithPrompt_eq.
  unfold item_result, item_trace.
  destruct (edit_result env (serviceCalls w) (App.base64_of image) (type (file image)) p)
    as [d|e]; simpl; rewrite <- ?app_assoc; reflexivity.
Qed.

(** The loop, from any index on: by induction on the passes to go. *)
Lemma for_each_image_eq imgs p remaining :
  forall i results w,
    i + remaining = length imgs ->
    App.for_each_image env imgs p remaining i results w =
      (let tr := loop_trace env p (length imgs) (serviceCalls w) i results (drop i imgs) in
       (Return (results ++ loop_results env p (serviceCalls w) (drop i imgs)),
        {| ui := replay (updates tr) (ui w);
           localStorage := localStorage w;
           serviceCalls := serviceCalls w + remaining;
           log := log w ++ tr |})).
Proof.
  induction remaining as [|remaining IH]; intros i results w Hlen; simpl.
  - rewrite drop_ge by lia. simpl.
    rewrite !app_nil_r, Nat.add_0_r. unfold ret. now rewrite world_eta.
  - destruct (lookup_lt_is_Some_2 imgs i ltac:(lia)) as [image Hi].
    unfold bind. rewrite (process_image_eq _ _ _ _ _ _ Hi). cbv beta zeta iota.
    rewrite IH by lia. cbv beta zeta iota.
    rewrite (drop_S _ _ _ Hi).
    cbn [serviceCalls ui localStorage log loop_results loop_trace].
    rewrite !updates_app, updates_item_trace, app_nil_l, replay_app.
    f_equal.
    + now rewrite <- app_assoc.
    + f_equal; [lia|]. now rewrite <- !app_assoc.
Qed.

Lemma length_loop_results p images :
  forall k, length (loop_results env p k images) = length images.
Proof. induction images as [|image rest IH]; intros k; simpl; [|rewrite IH]; reflexivity. Qed.

Lemma originalUrl_loop_results p images :
  forall k, List.map EditedImageResult.originalUrl (loop_results env p k images)
            = List.map url images.
Proof.
  induction images as [|image rest IH]; intros k; simpl; [reflexivity|].
  rewrite IH. f_equal. unfold item_result.
  destruct (edit_result env k _ _ p); reflexivity.
Qed.

Lemma exactly_one_item_result k p image : exactly_one (item_result env k p image) = true.
Proof. unfold item_result. destruct (edit_result env k _ _ p); reflexivity. Qed.

Lemma one_of_two_item_result k p image : one_of_two (item_result env k p image).
Proof.
  unfold one_of_two, item_result.
  destruct (edit_result env k _ _ p) as [d|e]; [left | right]; eauto.
Qed.

Lemma Forall_loop_results (P : EditedImageResult.t -> Prop) p images :
  (forall k image, P (item_result env k p image)) ->
  forall k, Forall P (loop_results env p k images).
Proof.
  intros HP. induction images as [|image rest IH]; intros k; simpl; constructor;
    [apply HP | apply IH].
Qed.

Lemma loop_results_with_setItem_throws refuses p images :
  forall k, loop_results (with_setItem_throws env refuses) p k images
            = loop_results env p k images.
Proof.
  induction images as [|image rest IH]; intros k; [reflexivity|].
  cbn [loop_results]. rewrite IH. reflexivity.
Qed.

Lemma service_calls_loop_trace p n images :
  forall k i results,
    service_calls (loop_trace env p n k i results images)
    = List.map (call_for Edit p) images.
Proof.
  induction images as [|image rest IH]; intros k i results; [reflexivity|].
  cbn [loop_trace List.map].
  autorewrite with log. rewrite service_calls_item_trace, IH. reflexivity.
Qed.

Lemma writes_loop_trace p n images :
  forall k i results, writes (loop_trace env p n k i results images) = [].
Proof.
  induction images as [|image rest IH]; intros k i results; [reflexivity|].
  cbn [loop_trace].
  autorewrite with log. rewrite writes_item_trace, IH. reflexivity.
Qed.

Lemma progress_updates_loop_trace p n images :
  forall k i results,
    progress_updates (loop_trace env p n k i results images) =
      List.map (fun j => Some {| current := j; total := n |}) (seq (i + 1) (length images)).
Proof.
  induction images as [|image rest IH]; intros k i results; [reflexivity|].
  cbn [loop_trace length seq List.map].
  autorewrite with log. rewrite progress_updates_item_trace, IH.
  replace (S i + 1) with (S (i + 1)) by lia. reflexivity.
Qed.

(** Every list the loop publishes is a prefix of the one it ends with. *)
Lemma published_loop_trace p n images :
  forall k i results,
    Forall (fun l => l `prefix_of` results ++ loop_results env p k images)
      (published (loop_trace env p n k i results images)).
Proof.
  induction images as [|image rest IH]; intros k i results; [constructor|].
  cbn [loop_trace loop_results].
  autorewrite with log. rewrite published_item_trace.
  cbn [app published omap list_omap published_of].
  constructor.
  - exists (loop_results env p (S k) rest). now rewrite <- app_assoc.
  - specialize (IH (S k) (S i) (results ++ [item_result env k p image])).
    now rewrite <- app_assoc in IH.
Qed.

(** The state the loop ends in: the last progress and the last list. *)
Lemma replay_loop_trace p n images :
  forall k i results s,
    replay (updates (loop_trace env p n k i results images)) s =
      match images with
      | [] => s
      | _ :: _ =>
          apply_setter (SetEditedImages (results ++ loop_results env p k images))
            (apply_setter (SetProgress (Some {| current := i + length images; total := n |})) s)
      end.
Proof.
  induction images as [|image rest IH]; intros k i results s; [reflexivity|].
  cbn [loop_trace loop_results].
  rewrite !updates_app, updates_item_trace, app_nil_l, replay_app, IH.
  destruct rest as [|image' rest].
  - reflexivity.
  - rewrite <- app_assoc. cbn [length].
    replace (S i + S (length rest)) with (i + S (S (length rest))) by lia.
    reflexivity.
Qed.

(** ** The end of an edit run *)

Lemma save_results_eq results w :
  App.save_results env results w =
    (Return tt,
     {| ui := ui w;
        localStorage := save_storage env results (localStorage w);
        serviceCalls := serviceCalls w;
        log := log w ++ save_trace env results |}).
Proof.
  unfold App.save_results, try_catch, save_storage, save_trace.
  destruct results as [|r results]; cbn [length Nat.ltb Nat.leb].
  - unfold ret. now rewrite app_nil_r, world_eta.
  - unfold Storage.setItem.
    set (text := JSON_stringify _).
    destruct (setItem_throws env App.LOCAL_STORAGE_KEY text);
      unfold console_error, emit; cbn [ui localStorage serviceCalls log].
    + now rewrite <- app_assoc.
    + reflexivity.
Qed.

Lemma save_trace_nonempty results :
  results <> [] ->
  save_trace env results =
    SetItem App.LOCAL_STORAGE_KEY (snapshot_text results) ::
    match setItem_throws env App.LOCAL_STORAGE_KEY (snapshot_text results) with
    | Some _ => [ConsoleError "Failed to save results to localStorage."]
    | None => []
    end.
Proof. unfold save_trace, snapshot_text. destruct results; [congruence | reflexivity]. Qed.

Lemma updates_save_trace results : updates (save_trace env results) = [].
Proof.
  unfold save_trace. destruct results; [reflexivity|].
  destruct (setItem_throws env _ _); reflexivity.
Qed.

Lemma service_calls_save_trace results : service_calls (save_trace env results) = [].
Proof.
  unfold save_trace. destruct results; [reflexivity|].
  destruct (setItem_throws env _ _); reflexivity.
Qed.

Lemma progress_updates_save_trace results : progress_updates (save_trace env results) = [].
Proof.
  unfold save_trace. destruct results; [reflexivity|].
  destruct (setItem_throws env _ _); reflexivity.
Qed.

Lemma published_save_trace results : published (save_trace env results) = [].
Proof.
  unfold save_trace. destruct results; [reflexivity|].
  destruct (setItem_throws env _ _); reflexivity.
Qed.
End RunFacts.

(** ** The three ways a call of generate goes *)

Section GenerateFacts.
Variable env : Env.

Lemma handleGenerate_cases (s : State) :
  (runs_edit s = false /\ (originalImages s = [] \/ prompt s = EmptyString)) \/
  (runs_edit s = true /\ mode s = edit /\ originalImages s <> [] /\
   truthy (prompt s) = true) \/
  (runs_edit s = false /\ mode s = analyze /\
   (exists image rest, originalImages s = image :: rest) /\ truthy (prompt s) = true).
Proof.
  unfold runs_edit.
  destruct (originalImages s) as [|image rest] eqn:E.
  { left. split; [|now left]. destruct (mode s); reflexivity. }
  destruct (prompt s) as [|c p] eqn:P.
  { left. split; [|now right]. destruct (mode s); reflexivity. }
  right. destruct (mode s); [left | right]; repeat split; eauto; discriminate.
Qed.

(** A call whose preconditions are not met. *)
Lemma handleGenerate_rejected_eq w :
  originalImages (ui w) = [] \/ prompt (ui w) = EmptyString ->
  App.handleGenerate env w =
    (Return tt,
     {| ui := apply_setter (SetError (Some "Please upload an image and provide a prompt.")) (ui w);
        localStorage := localStorage w;
        serviceCalls := serviceCalls w;
        log := log w ++ [Update (SetError (Some "Please upload an image and provide a prompt."))] |}).
Proof.
  intros H.
  unfold App.handleGenerate, bind at 1, get_ui. cbv beta iota zeta.
  assert (C : Nat.eqb (length (originalImages (ui w))) 0 || negb (truthy (prompt (ui w))) = true).
  { destruct H as [-> | ->]; [reflexivity|]. apply orb_true_r. }
  rewrite C. reflexivity.
Qed.

Lemma handleGenerate_rejected_trace w :
  originalImages (ui w) = [] \/ prompt (ui w) = EmptyString ->
  events_since w (run (App.handleGenerate env) w)
  = [Update (SetError (Some "Please upload an image and provide a prompt."))].
Proof.
  intros H. unfold run. rewrite (handleGenerate_rejected_eq w H). cbn [snd].
  now apply events_since_app.
Qed.

(** An edit run with its preconditions met, as one equation. *)
Lemma handleGenerate_edit_eq w :
  mode (ui w) = edit ->
  originalImages (ui w) <> [] ->
  truthy (prompt (ui w)) = true ->
  App.handleGenerate env w =
    (let imgs := originalImages (ui w) in
     let p := prompt (ui w) in
     let results := loop_results env p (serviceCalls w) imgs in
     let tr := prologue (length imgs) ++
               loop_trace env p (length imgs) (serviceCalls w) 0 [] imgs ++
               save_trace env results ++ [Update (SetIsLoading false)] in
     (Return tt,
      {| ui := replay (updates tr) (ui w);
         localStorage := save_storage env results (localStorage w);
         serviceCalls := serviceCalls w + length imgs;
         log := log w ++ tr |})).
Proof.
  intros Hmode Himgs Hprompt.
  unfold App.handleGenerate, bind at 1, get_ui. cbv beta iota zeta.
  rewrite Hmode, Hprompt.
  destruct (originalImages (ui w)) as [|image imgs] eqn:E; [congruence|].
  cbn [length Nat.eqb orb negb].
  unfold bind, set. cbn [ui localStorage serviceCalls log].
  rewrite for_each_image_eq by (cbn [length]; lia).
  cbv beta iota zeta. rewrite save_results_eq.
  cbn [ui localStorage serviceCalls log drop app].
  rewrite !updates_app, updates_save_trace, !replay_app.
  f_equal. f_equal. rewrite <- !app_assoc. reflexivity.
Qed.

Lemma handleGenerate_edit_trace w :
  mode (ui w) = edit ->
  originalImages (ui w) <> [] ->
  truthy (prompt (ui w)) = true ->
  events_since w (run (App.handleGenerate env) w) =
    prologue (length (originalImages (ui w))) ++
    loop_trace env (prompt (ui w)) (length (originalImages (ui w))) (serviceCalls w) 0 []
      (originalImages (ui w)) ++
    save_trace env (loop_results env (prompt (ui w)) (serviceCalls w) (originalImages (ui w))) ++
    [Update (SetIsLoading false)].
Proof.
  intros Hmode Himgs Hprompt. unfold run.
  rewrite (handleGenerate_edit_eq w Hmode Himgs Hprompt). cbv zeta. cbn [snd].
  now apply events_since_app.
Qed.

(** The state an edit run ends in. *)
Lemma handleGenerate_edit_ui w :
  mode (ui w) = edit ->
  originalImages (ui w) <> [] ->
  truthy (prompt (ui w)) = true ->
  ui (run (App.handleGenerate env) w) =
    {| mode := mode (ui w);
       originalImages := originalImages (ui w);
       editedImages :=
         loop_results env (prompt (ui w)) (serviceCalls w) (originalImages (ui w));
       analysisResult := None;
       prompt := prompt (ui w);
       isLoading := false;
       error := None;
       progress := Some {| current := length (originalImages (ui w));
                           total := length (originalImages (ui w)) |} |}.
Proof.
  intros Hmode Himgs Hprompt.
  unfold run. rewrite handleGenerate_edit_eq by assumption.
  cbv beta zeta. cbn [snd ui].
  rewrite !updates_app, !replay_app, updates_save_trace, replay_loop_trace.
  destruct (originalImages (ui w)) as [|image imgs] eqn:E; [congruence|].
  ui_simpl. rewrite E. reflexivity.
Qed.

(** An analyze run with its preconditions met, as one equation. *)
Lemma handleGenerate_analyze_eq w image rest :
  mode (ui w) = analyze ->
  originalImages (ui w) = image :: rest ->
  truthy (prompt (ui w)) = true ->
  App.handleGenerate env w =
    (let p := prompt (ui w) in
     let k := serviceCalls w in
     let answer := analyze_result env k (App.base64_of image) (type (file image)) p in
     let tr := prologue (length (image :: rest)) ++
               analyze_trace env k (App.base64_of image) (type (file image)) p ++
               [Update match answer with
                       | Return textResult => SetAnalysisResult (Some textResult)
                       | Throw err =>
                           SetError (Some (message_or "An unknown error occurred during analysis." err))
                       end;
                Update (SetIsLoading false)] in
     (Return tt,
      {| ui := replay (updates tr) (ui w);
         localStorage := localStorage w;
         serviceCalls := S (serviceCalls w);
         log := log w ++ tr |})).
Proof.
  intros Hmode Himgs Hprompt.
  unfold App.handleGenerate, bind at 1, get_ui. cbv beta iota zeta.
  rewrite Hmode, Hprompt, Himgs.
  cbn [length Nat.eqb orb negb].
  unfold App.analyze_first, bind, set, try_catch.
  cbn [ui localStorage serviceCalls log lookup list_lookup].
  rewrite analyzeImageWithPrompt_eq. cbn [ui localStorage serviceCalls log].
  rewrite !updates_app, !replay_app.
  destruct (analyze_trace_shape env (serviceCalls w) (App.base64_of image)
              (type (file image)) (prompt (ui w))) as (q & Eq & Hq).
  rewrite Eq at 1.
  change (updates (ServiceCall Analyze (App.base64_of image) (type (file image))
                     (prompt (ui w)) :: q)) with (updates q).
  rewrite (updates_quiet q Hq).
  destruct (analyze_result env (serviceCalls w) (App.base64_of image) (type (file image))
              (prompt (ui w))) as [t|e];
    cbn [ui localStorage serviceCalls log]; rewrite <- !app_assoc; reflexivity.
Qed.

Lemma handleGenerate_analyze_trace w image rest :
  mode (ui w) = analyze ->
  originalImages (ui w) = image :: rest ->
  truthy (prompt (ui w)) = true ->
  events_since w (run (App.handleGenerate env) w) =
    prologue (length (image :: rest)) ++
    analyze_trace env (serviceCalls w) (App.base64_of image) (type (file image))
      (prompt (ui w)) ++
    [Update match analyze_result env (serviceCalls w) (App.base64_of image)
                    (type (file image)) (prompt (ui w)) with
            | Return textResult => SetAnalysisResult (Some textResult)
            | Throw err =>
                SetError (Some (message_or "An unknown error occurred during analysis." err))
            end;
     Update (SetIsLoading false)].
Proof.
  intros Hmode Himgs Hprompt. unfold run.
  rewrite (handleGenerate_analyze_eq w image rest Hmode Himgs Hprompt). cbv zeta. cbn [snd].
  now apply events_since_app.
Qed.

(** The state an analyze run ends in. *)
Lemma handleGenerate_analyze_ui w image rest :
  mode (ui w) = analyze ->
  originalImages (ui w) = image :: rest ->
  truthy (prompt (ui w)) = true ->
  ui (run (App.handleGenerate env) w) =
    let answer := analyze_result env (serviceCalls w) (App.base64_of image)
                    (type (file image)) (prompt (ui w)) in
    {| mode := mode (ui w);
       originalImages := originalImages (ui w);
       editedImages := [];
       analysisResult := match answer with Return textResult => Some textResult | Throw _ => None end;
       prompt := prompt (ui w);
       isLoading := false;
       error := match answer with
                | Return _ => None
                | Throw err => Some (message_or "An unknown error occurred during analysis." err)
                end;
       progress := Some {| current := 0; total := length (originalImages (ui w)) |} |}.
Proof.
  intros Hmode Himgs Hprompt.
  unfold run. rewrite (handleGenerate_analyze_eq w image rest) by assumption.
  cbv beta zeta. cbn [snd ui].
  rewrite !updates_app, !replay_app.
  destruct (analyze_trace_shape env (serviceCalls w) (App.base64_of image)
              (type (file image)) (prompt (ui w))) as (q & -> & Hq).
  change (updates (ServiceCall Analyze (App.base64_of image) (type (file image))
                     (prompt (ui w)) :: q)) with (updates q).
  rewrite (updates_quiet q Hq), Himgs.
  destruct (analyze_result env (serviceCalls w) (App.base64_of image) (type (file image))
              (prompt (ui w))); ui_simpl; rewrite Himgs; reflexivity.
Qed.

(** The state a run moves through is the replay of its setter calls. *)
Lemma handleGenerate_replay w :
  ui (run (App.handleGenerate env) w)
  = replay (updates (events_since w (run (App.handleGenerate env) w))) (ui w).
Proof.
  destruct (handleGenerate_cases (ui w))
    as [[_ H] | [(_ & Hmode & Himgs & Hprompt) | (_ & Hmode & (image & rest & Himgs) & Hprompt)]].
  - rewrite (handleGenerate_rejected_trace w H).
    unfold run. now rewrite (handleGenerate_rejected_eq w H).
  - rewrite (handleGenerate_edit_trace w Hmode Himgs Hprompt).
    unfold run. now rewrite (handleGenerate_edit_eq w Hmode Himgs Hprompt).
  - rewrite (handleGenerate_analyze_trace w image rest Hmode Himgs Hprompt).
    unfold run. now rewrite (handleGenerate_analyze_eq w image rest Hmode Himgs Hprompt).
Qed.

(** The handler never ends by throwing. *)
Lemma handleGenerate_returns w : result (App.handleGenerate env) w = Return tt.
Proof.
  unfold result.
  destruct (handleGenerate_cases (ui w))
    as [[_ H] | [(_ & Hmode & Himgs & Hprompt) | (_ & Hmode & (image & rest & Himgs) & Hprompt)]].
  - now rewrite (handleGenerate_rejected_eq w H).
  - now rewrite (handleGenerate_edit_eq w Hmode Himgs Hprompt).
  - now rewrite (handleGenerate_analyze_eq w image rest Hmode Himgs Hprompt).
Qed.
End GenerateFacts.

(** ** The handlers other than generate *)

Lemma handleModeChange_trace newMode w :
  events_since w (run (App.handleModeChange newMode) w) =
    [Update (SetMode newMode); Update (SetOriginalImages []); Update (SetEditedImages []);
     Update (SetAnalysisResult None); Update (SetPrompt EmptyString); Update (SetError None);
     Update (SetProgress None)] ++
    (if Mode_eqb newMode analyze then [RemoveItem App.LOCAL_STORAGE_KEY] else []).
Proof.
  destruct newMode; unfold App.handleModeChange, bind, set, Storage.removeItem, ret;
    cbn [Mode_eqb ui localStorage serviceCalls log]; read_trace; reflexivity.
Qed.

Lemma handleImagesSelect_trace newFiles w :
  events_since w (run (App.handleImagesSelect newFiles) w) =
    [Update (SetOriginalImages
               (if Mode_eqb (mode (ui w)) analyze then firstn 1 newFiles
                else originalImages (ui w) ++ newFiles));
     Update (SetEditedImages []); Update (SetAnalysisResult None); Update (SetError None);
     RemoveItem App.LOCAL_STORAGE_KEY].
Proof.
  unfold run, App.handleImagesSelect, bind, get_ui, set, Storage.removeItem.
  cbv beta iota zeta.
  destruct (Mode_eqb (mode (ui w)) analyze);
    cbn [ui localStorage serviceCalls log]; read_trace; reflexivity.
Qed.

Lemma handleRemoveImage_trace indexToRemove w :
  events_since w (run (App.handleRemoveImage indexToRemove) w) =
    [Update (SetOriginalImages
               (filter_index (fun index => negb (Nat.eqb index indexToRemove)) 0
                  (originalImages (ui w))));
     Update (SetEditedImages []); Update (SetAnalysisResult None);
     RemoveItem App.LOCAL_STORAGE_KEY].
Proof.
  unfold App.handleRemoveImage, bind, get_ui, set, Storage.removeItem.
  cbn [ui localStorage serviceCalls log]; read_trace; reflexivity.
Qed.

Lemma handleClearImages_trace w :
  events_since w (run App.handleClearImages w) =
    [Update (SetOriginalImages []); Update (SetEditedImages []);
     Update (SetAnalysisResult None); RemoveItem App.LOCAL_STORAGE_KEY].
Proof.
  unfold App.handleClearImages, bind, set, Storage.removeItem.
  cbn [ui localStorage serviceCalls log]; read_trace; reflexivity.
Qed.

(** In the analyzer a selection is at most one image. *)
Lemma handleImagesSelect_analyze_single newFiles w :
  mode (ui w) = analyze ->
  length (originalImages (ui (run (App.handleImagesSelect newFiles) w))) <= 1.
Proof.
  intros Hmode.
  unfold run, App.handleImagesSelect, bind, get_ui, set, Storage.removeItem.
  cbv beta iota zeta. rewrite Hmode. cbn [Mode_eqb].
  destruct newFiles as [|f fs]; simpl; lia.
Qed.

(** The session-restoring effect, case by case. *)
Lemma loadSession_eq env w :
  App.loadSession env w =
    (Return tt,
     match localStorage w !! App.LOCAL_STORAGE_KEY with
     | Some text =>
         if truthy text then
           match JSON_parse env text with
           | Return (JArray items) =>
               let restored := List.map EditedImageResult.fromJSON items in
               {| ui := apply_setter (SetEditedImages restored) (apply_setter (SetMode edit) (ui w));
                  localStorage := localStorage w;
                  serviceCalls := serviceCalls w;
                  log := log w ++ [GetItem App.LOCAL_STORAGE_KEY; Update (SetMode edit);
                                   Update (SetEditedImages restored)] |}
           | Return _ =>
               {| ui := ui w; localStorage := localStorage w; serviceCalls := serviceCalls w;
                  log := log w ++ [GetItem App.LOCAL_STORAGE_KEY] |}
           | Throw _ =>
               {| ui := ui w;
                  localStorage := delete App.LOCAL_STORAGE_KEY (localStorage w);
                  serviceCalls := serviceCalls w;
                  log := log w ++ [GetItem App.LOCAL_STORAGE_KEY;
                                   ConsoleError "Failed to load saved images:";
                                   RemoveItem App.LOCAL_STORAGE_KEY] |}
           end
         else
           {| ui := ui w; localStorage := localStorage w; serviceCalls := serviceCalls w;
              log := log w ++ [GetItem App.LOCAL_STORAGE_KEY] |}
     | None =>
         {| ui := ui w; localStorage := localStorage w; serviceCalls := serviceCalls w;
            log := log w ++ [GetItem App.LOCAL_STORAGE_KEY] |}
     end).
Proof.
  unfold App.loadSession, try_catch, bind, Storage.getItem, App.parse, set, ret,
    console_error, emit, Storage.removeItem.
  cbn [ui localStorage serviceCalls log].
  destruct (localStorage w !! App.LOCAL_STORAGE_KEY) as [text|]; [|reflexivity].
  destruct (truthy text); [|reflexivity].
  destruct (JSON_parse env text) as [[]|e];
    cbn [ui localStorage serviceCalls log]; rewrite <- ?app_assoc; reflexivity.
Qed.

Lemma loadSession_writes env w : writes (events_since w (run (App.loadSession env) w)) = [].
Proof.
  unfold run. rewrite loadSession_eq. cbn [snd].
  destruct (localStorage w !! App.LOCAL_STORAGE_KEY) as [text|];
    [destruct (truthy text); [destruct (JSON_parse env text) as [[]|e]|]|];
    cbn [log]; erewrite events_since_app by reflexivity; reflexivity.
Qed.

(** * The specification, statement by statement *)

(** C1. In edit mode, for every non-empty selection (and a prompt, without
    which nothing runs), a generate run ends normally with exactly one
    outcome per input image, the i-th outcome carrying the encoded data of
    the i-th image as its [originalUrl]; the service is called once per
    image, in order, whatever the calls answer, so that a failure on one
    item does not abort the remaining items. *)
Theorem handleGenerate_edit_outcome_per_image (env : Env) (w : World) :
  mode (ui w) = edit ->
  originalImages (ui w) <> [] ->
  prompt (ui w) <> EmptyString ->
  let w' := run (App.handleGenerate env) w in
  result (App.handleGenerate env) w = Return tt /\
  length (editedImages (ui w')) = length (originalImages (ui w)) /\
  (forall i image,
      originalImages (ui w) !! i = Some image ->
      exists outcome,
        editedImages (ui w') !! i = Some outcome /\
        EditedImageResult.originalUrl outcome = url image) /\
  service_calls (events_since w w')
    = List.map (call_for Edit (prompt (ui w))) (originalImages (ui w)).
Proof.
  intros Hmode Himgs Hprompt w'. apply truthy_true in Hprompt.
  assert (Hui := handleGenerate_edit_ui env w Hmode Himgs Hprompt). fold w' in Hui.
  split; [apply handleGenerate_returns|].
  split; [|split].
  - rewrite Hui. cbn [editedImages]. apply length_loop_results.
  - intros i image Hi. rewrite Hui. cbn [editedImages].
    eapply map_eq_lookup; [apply originalUrl_loop_results | exact Hi].
  - unfold w'. rewrite (handleGenerate_edit_trace env w Hmode Himgs Hprompt).
    autorewrite with log.
    rewrite service_calls_loop_trace, service_calls_save_trace. cbn. now rewrite app_nil_r.
Qed.

(** On the three photos: three outcomes, three service calls in order. *)
Lemma handleGenerate_edit_outcome_per_image_scenario :
  let w := Scenario.world (Scenario.state edit Scenario.images "Remove the background") ∅ in
  let w' := run (App.handleGenerate Scenario.env) w in
  (mode (ui w) = edit /\ originalImages (ui w) <> [] /\ prompt (ui w) <> EmptyString) /\
  length (editedImages (ui w')) = 3 /\
  service_calls (events_since w w')
    = List.map (call_for Edit "Remove the background") Scenario.images.
Proof.
  intros w w'.
  assert (H1 : mode (ui w) = edit) by reflexivity.
  assert (H2 : originalImages (ui w) <> []) by (vm_compute; discriminate).
  assert (H3 : prompt (ui w) <> EmptyString) by (vm_compute; discriminate).
  destruct (handleGenerate_edit_outcome_per_image Scenario.env w H1 H2 H3) as (_ & L & _ & C).
  split; [auto | split; [exact L | exact C]].
Defined.

(** C2. Every outcome of a completed edit-mode generate run has exactly one
    of its two fields: either the edited image data is there (a non-empty
    data URL) and no error message, or the error message is there and no
    edited image data. *)
Theorem handleGenerate_edit_outcome_exactly_one (env : Env) (w : World) :
  mode (ui w) = edit ->
  originalImages (ui w) <> [] ->
  prompt (ui w) <> EmptyString ->
  let outcomes := editedImages (ui (run (App.handleGenerate env) w)) in
  Forall one_of_two outcomes /\
  Forall (fun outcome => exactly_one outcome = true) outcomes.
Proof.
  intros Hmode Himgs Hprompt outcomes. apply truthy_true in Hprompt.
  unfold outcomes. rewrite (handleGenerate_edit_ui env w Hmode Himgs Hprompt).
  cbn [editedImages]. split; apply Forall_loop_results; intros k image.
  - apply one_of_two_item_result.
  - apply exactly_one_item_result.
Qed.

(** On the three photos, the second of which fails. *)
Lemma handleGenerate_edit_outcome_exactly_one_scenario :
  let w := Scenario.world (Scenario.state edit Scenario.images "Remove the background") ∅ in
  (mode (ui w) = edit /\ originalImages (ui w) <> [] /\ prompt (ui w) <> EmptyString) /\
  Forall (fun outcome => exactly_one outcome = true)
    (editedImages (ui (run (App.handleGenerate Scenario.env) w))).
Proof.
  intros w.
  assert (H1 : mode (ui w) = edit) by reflexivity.
  assert (H2 : originalImages (ui w) <> []) by (vm_compute; discriminate).
  assert (H3 : prompt (ui w) <> EmptyString) by (vm_compute; discriminate).
  split; [auto|].
  exact (proj2 (handleGenerate_edit_outcome_exactly_one Scenario.env w H1 H2 H3)).
Defined.

(** C3. Over one edit-mode batch run the progress is set to 0 of n, then to
    1 of n, ... up to n of n, once after each item whether it succeeded or
    failed: the completed count never decreases, and when the run finishes
    it equals the total count. *)
Theorem handleGenerate_edit_progress (env : Env) (w : World) :
  mode (ui w) = edit ->
  originalImages (ui w) <> [] ->
  prompt (ui w) <> EmptyString ->
  let w' := run (App.handleGenerate env) w in
  let n := length (originalImages (ui w)) in
  let history := progress_updates (events_since w w') in
  history = List.map (fun j => Some {| current := j; total := n |}) (seq 0 (S n)) /\
  (forall i j p q,
      i <= j -> history !! i = Some (Some p) -> history !! j = Some (Some q) ->
      current p <= current q) /\
  progress (ui w') = Some {| current := n; total := n |}.
Proof.
  intros Hmode Himgs Hprompt w' n history. apply truthy_true in Hprompt.
  assert (Hh : history
               = List.map (fun j => Some {| current := j; total := n |}) (seq 0 (S n))).
  { unfold history, w'. rewrite (handleGenerate_edit_trace env w Hmode Himgs Hprompt).
    autorewrite with log.
    rewrite progress_updates_loop_trace, progress_updates_save_trace.
    subst n. cbn. now rewrite app_nil_r. }
  split; [exact Hh | split].
  - intros i j p q Hij Hp Hq. rewrite Hh in Hp, Hq.
    apply lookup_progress_seq in Hp, Hq. lia.
  - unfold w'. rewrite (handleGenerate_edit_ui env w Hmode Himgs Hprompt). reflexivity.
Qed.

(** On the three photos: 0 of 3, 1 of 3, 2 of 3, 3 of 3. *)
Lemma handleGenerate_edit_progress_scenario :
  let w := Scenario.world (Scenario.state edit Scenario.images "Remove the background") ∅ in
  let w' := run (App.handleGenerate Scenario.env) w in
  (mode (ui w) = edit /\ originalImages (ui w) <> [] /\ prompt (ui w) <> EmptyString) /\
  progress_updates (events_since w w')
    = [Some {| current := 0; total := 3 |}; Some {| current := 1; total := 3 |};
       Some {| current := 2; total := 3 |}; Some {| current := 3; total := 3 |}] /\
  progress (ui w') = Some {| current := 3; total := 3 |}.
Proof.
  intros w w'.
  assert (H1 : mode (ui w) = edit) by reflexivity.
  assert (H2 : originalImages (ui w) <> []) by (vm_compute; discriminate).
  assert (H3 : prompt (ui w) <> EmptyString) by (vm_compute; discriminate).
  destruct (handleGenerate_edit_progress Scenario.env w H1 H2 H3) as (Hh & _ & Hp).
  split; [auto | split; [exact Hh | exact Hp]].
Defined.

(** C4. In analyze mode a generate run calls the analyze service exactly
    once, with the first selected image and the prompt, and sends at most one
    request.  When the service answers, the analysis result is exactly the
    answered text and no error is set; when it fails, the message of the
    failure is set as the error of the banner (the fixed message of the
    service when the request itself failed) and the analysis result stays
    absent.  In neither case is anything written to the storage. *)
Theorem handleGenerate_analyze (env : Env) (w : World) (image : ImageFile)
    (rest : list ImageFile) :
  mode (ui w) = analyze ->
  originalImages (ui w) = image :: rest ->
  prompt (ui w) <> EmptyString ->
  let w' := run (App.handleGenerate env) w in
  let tr := events_since w w' in
  let answer :=
    result (geminiService.analyzeImageWithPrompt env (App.base64_of image)
              (type (file image)) (prompt (ui w))) w in
  result (App.handleGenerate env) w = Return tt /\
  service_calls tr = [call_for Analyze (prompt (ui w)) image] /\
  length (requests tr) <= 1 /\
  (forall textResult,
      answer = Return textResult ->
      analysisResult (ui w') = Some textResult /\ error (ui w') = None) /\
  (forall err,
      answer = Throw err ->
      analysisResult (ui w') = None /\
      error (ui w') = Some (message_or "An unknown error occurred during analysis." err)) /\
  (forall err,
      GoogleGenAI_throws env (serviceCalls w) = None ->
      generateContent_ends env (serviceCalls w)
        (analyze_request (App.base64_of image) (type (file image)) (prompt (ui w)))
      = Throw err ->
      banner (ui w') = Some "Failed to communicate with the AI model for analysis. Please check your API key and network connection.") /\
  writes tr = [] /\
  localStorage w' = localStorage w.
Proof.
  intros Hmode Himgs Hprompt w' tr answer. apply truthy_true in Hprompt.
  assert (Hui := handleGenerate_analyze_ui env w image rest Hmode Himgs Hprompt).
  fold w' in Hui. cbv zeta in Hui.
  assert (Htr := handleGenerate_analyze_trace env w image rest Hmode Himgs Hprompt).
  fold w' in Htr. fold tr in Htr.
  assert (Hans : answer = analyze_result env (serviceCalls w) (App.base64_of image)
                            (type (file image)) (prompt (ui w))).
  { unfold answer, result. now rewrite analyzeImageWithPrompt_eq. }
  destruct (analyze_trace_shape env (serviceCalls w) (App.base64_of image)
              (type (file image)) (prompt (ui w))) as (q & Eq & Hq).
  split; [apply handleGenerate_returns|].
  split; [|split; [|split; [|split; [|split; [|split]]]]].
  - rewrite Htr, Eq. autorewrite with log.
    change (service_calls (ServiceCall Analyze (App.base64_of image) (type (file image))
                             (prompt (ui w)) :: q))
      with (call_for Analyze (prompt (ui w)) image :: service_calls q).
    rewrite (service_calls_quiet q Hq).
    destruct (analyze_result env _ _ _ _); reflexivity.
  - rewrite Htr. autorewrite with log. rewrite requests_analyze_trace.
    destruct (GoogleGenAI_throws env (serviceCalls w));
      destruct (analyze_result env _ _ _ _); cbn; lia.
  - intros textResult Hok. rewrite Hans in Hok. rewrite Hui, Hok. split; reflexivity.
  - intros err Hko. rewrite Hans in Hko. rewrite Hui, Hko. split; reflexivity.
  - intros err Hnew Hreq. rewrite Hui. unfold analyze_result. rewrite Hnew, Hreq. reflexivity.
  - rewrite Htr, Eq. autorewrite with log.
    change (writes (ServiceCall Analyze (App.base64_of image) (type (file image))
                      (prompt (ui w)) :: q)) with (writes q).
    rewrite (writes_quiet q Hq).
    destruct (analyze_result env _ _ _ _); reflexivity.
  - unfold w', run.
    now rewrite (handleGenerate_analyze_eq env w image rest Hmode Himgs Hprompt).
Qed.

(** On one photo and the question of the scenario: the answer is stored as it
    came, and nothing is written. *)
Lemma handleGenerate_analyze_scenario :
  let image := Scenario.photo "bike.png" "BIKE" in
  let w := Scenario.world (Scenario.state analyze [image] "Describe this image in detail") ∅ in
  let w' := run (App.handleGenerate Scenario.env) w in
  (mode (ui w) = analyze /\ originalImages (ui w) = [image] /\ prompt (ui w) <> EmptyString) /\
  analysisResult (ui w') = Some "A red bicycle leaning against a brick wall." /\
  writes (events_since w w') = [].
Proof.
  intros image w w'.
  assert (H1 : mode (ui w) = analyze) by reflexivity.
  assert (H2 : originalImages (ui w) = [image]) by reflexivity.
  assert (H3 : prompt (ui w) <> EmptyString) by (vm_compute; discriminate).
  destruct (handleGenerate_analyze Scenario.env w image [] H1 H2 H3)
    as (_ & _ & _ & Hok & _ & _ & Hw & _).
  split; [auto | split; [|exact Hw]].
  apply (Hok "A red bicycle leaning against a brick wall."). reflexivity.
Defined.

(** C5, as the code has it.  Removing one image, clearing all images and
    switching mode each reset the edit outcomes and the analysis result;
    switching mode also clears the error; removing and clearing delete the
    stored snapshot, and so does switching to the analyzer, while switching
    to the editor leaves the storage as it was. *)
Theorem selection_or_mode_change_resets (w : World) :
  (forall index,
      let w' := run (App.handleRemoveImage index) w in
      editedImages (ui w') = [] /\ analysisResult (ui w') = None /\
      localStorage w' = delete App.LOCAL_STORAGE_KEY (localStorage w) /\
      localStorage w' !! App.LOCAL_STORAGE_KEY = None) /\
  (let w' := run App.handleClearImages w in
   editedImages (ui w') = [] /\ analysisResult (ui w') = None /\
   localStorage w' = delete App.LOCAL_STORAGE_KEY (localStorage w) /\
   localStorage w' !! App.LOCAL_STORAGE_KEY = None) /\
  (forall newMode,
      let w' := run (App.handleModeChange newMode) w in
      editedImages (ui w') = [] /\ analysisResult (ui w') = None /\
      error (ui w') = None /\ banner (ui w') = None /\
      localStorage w' = match newMode with
                        | analyze => delete App.LOCAL_STORAGE_KEY (localStorage w)
                        | edit => localStorage w
                        end).
Proof.
  split; [|split].
  - intros index w'. repeat split. apply lookup_delete_eq.
  - cbv zeta. repeat split. apply lookup_delete_eq.
  - intros [] w'; repeat split.
Qed.

(** C5 fails as stated.  After an edit run the snapshot is stored, and
    choosing the editor again leaves it stored; so does the switch from the
    analyzer to the editor in a state where a snapshot is stored.  After a
    failed analysis the banner shows the failure, and it still shows it
    after the image is removed and after the selection is cleared. *)
Lemma snapshot_survives_switch_to_edit_and_banner_survives_clear :
  (let w := Scenario.after_edit_run in
   localStorage w !! App.LOCAL_STORAGE_KEY = Some (snapshot_text (editedImages (ui w))) /\
   localStorage (run (App.handleModeChange edit) w) !! App.LOCAL_STORAGE_KEY
     = Some (snapshot_text (editedImages (ui w)))) /\
  (let w := Scenario.world (Scenario.state analyze [] EmptyString) (Scenario.stored "[]") in
   mode (ui (run (App.handleModeChange edit) w)) = edit /\
   localStorage (run (App.handleModeChange edit) w) !! App.LOCAL_STORAGE_KEY = Some "[]") /\
  (let w := Scenario.after_failed_analysis in
   let message := "Failed to communicate with the AI model for analysis. Please check your API key and network connection." in
   banner (ui w) = Some message /\
   banner (ui (run (App.handleRemoveImage 0) w)) = Some message /\
   banner (ui (run App.handleClearImages w)) = Some message).
Proof.
  repeat split; vm_compute; reflexivity.
Qed.

(** C6, as the code has it.  When the component is mounted and the fixed
    key holds a text, the effect ends normally and sets no error; if the
    text does not parse, the outcomes stay empty, and the entry is deleted
    when parsing threw (an empty text is not parsed at all); if the text
    parses to something that is not an array, the outcomes stay empty. *)
Theorem loadSession_malformed (env : Env) (store : gmap string string) (text : string) :
  store !! App.LOCAL_STORAGE_KEY = Some text ->
  let w := {| ui := initialState; localStorage := store; serviceCalls := 0; log := [] |} in
  let w' := run (App.loadSession env) w in
  result (App.loadSession env) w = Return tt /\
  error (ui w') = None /\
  banner (ui w') = None /\
  (forall err,
      JSON_parse env text = Throw err ->
      editedImages (ui w') = [] /\
      (text <> EmptyString ->
       localStorage w' = delete App.LOCAL_STORAGE_KEY store /\
       localStorage w' !! App.LOCAL_STORAGE_KEY = None)) /\
  (forall parsed,
      JSON_parse env text = Return parsed ->
      (forall items, parsed <> JArray items) ->
      editedImages (ui w') = []).
Proof.
  intros Hstore w w'.
  assert (Heq := loadSession_eq env w).
  change (localStorage w) with store in Heq. change (ui w) with initialState in Heq.
  rewrite Hstore in Heq.
  assert (Hw : w' = snd (App.loadSession env w)) by reflexivity.
  rewrite Heq in Hw. cbn [snd] in Hw.
  split; [unfold result; now rewrite Heq|].
  split; [|split; [|split]].
  - rewrite Hw. destruct (truthy text); [destruct (JSON_parse env text) as [[]|e]|]; reflexivity.
  - rewrite Hw. destruct (truthy text); [destruct (JSON_parse env text) as [[]|e]|]; reflexivity.
  - intros err Hthrow. rewrite Hw, Hthrow. split.
    + destruct (truthy text); reflexivity.
    + intros Htext. rewrite (truthy_true text Htext). split; [reflexivity|].
      apply lookup_delete_eq.
  - intros parsed Hp Hna. rewrite Hw, Hp.
    destruct (truthy text); [|reflexivity].
    destruct parsed; try reflexivity. now destruct (Hna items).
Qed.

(** On a stored text that is not JSON: the outcomes are empty and the entry
    is gone. *)
Lemma loadSession_malformed_scenario :
  let store := Scenario.stored "{not json" in
  let w' := run (App.loadSession Scenario.env) (Scenario.world initialState store) in
  store !! App.LOCAL_STORAGE_KEY = Some "{not json" /\
  JSON_parse Scenario.env "{not json" = Throw Browser.SyntaxError /\
  editedImages (ui w') = [] /\
  localStorage w' !! App.LOCAL_STORAGE_KEY = None.
Proof.
  intros store w'.
  assert (H : store !! App.LOCAL_STORAGE_KEY = Some "{not json") by (vm_compute; reflexivity).
  assert (P : JSON_parse Scenario.env "{not json" = Throw Browser.SyntaxError)
    by (vm_compute; reflexivity).
  destruct (loadSession_malformed Scenario.env store "{not json" H) as (_ & _ & _ & T & _).
  destruct (T Browser.SyntaxError P) as (E & D).
  destruct (D ltac:(discriminate)) as (_ & L).
  split; [exact H | split; [exact P | split; [exact E | exact L]]].
Defined.

(** C6 fails as stated.  A stored text that is JSON but not an array (here
    an empty object, or a number) parses without throwing; the outcomes
    stay empty, and the entry is still stored after the load. *)
Lemma loadSession_keeps_entry_that_is_not_an_array :
  (let w' := run (App.loadSession Scenario.env)
               (Scenario.world initialState (Scenario.stored "{}")) in
   JSON_parse Scenario.env "{}" = Return (JObject []) /\
   editedImages (ui w') = [] /\
   localStorage w' !! App.LOCAL_STORAGE_KEY = Some "{}") /\
  (let w' := run (App.loadSession Scenario.env)
               (Scenario.world initialState (Scenario.stored "42")) in
   JSON_parse Scenario.env "42" = Return (JNumber "42") /\
   editedImages (ui w') = [] /\
   localStorage w' !! App.LOCAL_STORAGE_KEY = Some "42").
Proof.
  split; cbv zeta; repeat split; vm_compute; reflexivity.
Qed.

(** C7. The snapshot is written by nothing but a generate run in edit mode:
    the session-restoring effect, a mode change, a selection, a removal and
    a clearing write nothing, and neither does generate when it is rejected
    or analyzes.  An edit run writes once, the text of its (non-empty)
    final outcomes under the fixed key, after all its service calls, and
    only the console line of a refused write and [setIsLoading(false)]
    follow.  A refused write is swallowed: the handler ends normally, the
    error of the banner stays absent, and the state the run ends in is the
    same whatever the storage does with the write. *)
Theorem snapshot_written_only_after_edit_run (env : Env) (w : World) :
  let w' := run (App.handleGenerate env) w in
  let tr := events_since w w' in
  let text := snapshot_text (editedImages (ui w')) in
  writes (events_since w (run (App.loadSession env) w)) = [] /\
  (forall newMode, writes (events_since w (run (App.handleModeChange newMode) w)) = []) /\
  (forall newFiles, writes (events_since w (run (App.handleImagesSelect newFiles) w)) = []) /\
  (forall index, writes (events_since w (run (App.handleRemoveImage index) w)) = []) /\
  writes (events_since w (run App.handleClearImages w)) = [] /\
  writes tr = (if runs_edit (ui w) then [(App.LOCAL_STORAGE_KEY, text)] else []) /\
  (runs_edit (ui w) = true ->
     editedImages (ui w') <> [] /\
     (exists before,
        tr = before ++
             SetItem App.LOCAL_STORAGE_KEY text ::
             match setItem_throws env App.LOCAL_STORAGE_KEY text with
             | Some _ => [ConsoleError "Failed to save results to localStorage."]
             | None => []
             end ++ [Update (SetIsLoading false)] /\
        writes before = [] /\
        service_calls before
          = List.map (call_for Edit (prompt (ui w))) (originalImages (ui w))) /\
     error (ui w') = None /\
     banner (ui w') = None) /\
  result (App.handleGenerate env) w = Return tt /\
  (forall refuses,
      ui (run (App.handleGenerate (with_setItem_throws env refuses)) w) = ui w').
Proof.
  intros w' tr text.
  split; [apply loadSession_writes|].
  split; [intros m; rewrite handleModeChange_trace; destruct m; reflexivity|].
  split; [intros f; rewrite handleImagesSelect_trace; reflexivity|].
  split; [intros i; rewrite handleRemoveImage_trace; reflexivity|].
  split; [rewrite handleClearImages_trace; reflexivity|].
  assert (Hret := handleGenerate_returns env w).
  destruct (handleGenerate_cases (ui w))
    as [[R H] | [(R & Hmode & Himgs & Hprompt) | (R & Hmode & (image & rest & Himgs) & Hprompt)]];
    rewrite R.
  - (* the call is rejected *)
    split; [unfold tr, w'; rewrite (handleGenerate_rejected_trace env w H); reflexivity|].
    split; [discriminate|].
    split; [exact Hret|].
    intros refuses. unfold w', run. now rewrite !handleGenerate_rejected_eq.
  - (* an edit run *)
    assert (Hui := fun e => handleGenerate_edit_ui e w Hmode Himgs Hprompt).
    assert (Htext : text = snapshot_text
                             (loop_results env (prompt (ui w)) (serviceCalls w)
                                (originalImages (ui w)))).
    { unfold text, w'. now rewrite Hui. }
    assert (Hne : loop_results env (prompt (ui w)) (serviceCalls w) (originalImages (ui w)) <> []).
    { destruct (originalImages (ui w)); [congruence | discriminate]. }
    assert (Htr : tr = (prologue (length (originalImages (ui w))) ++
                        loop_trace env (prompt (ui w)) (length (originalImages (ui w)))
                          (serviceCalls w) 0 [] (originalImages (ui w))) ++
                       SetItem App.LOCAL_STORAGE_KEY text ::
                       match setItem_throws env App.LOCAL_STORAGE_KEY text with
                       | Some _ => [ConsoleError "Failed to save results to localStorage."]
                       | None => []
                       end ++ [Update (SetIsLoading false)]).
    { unfold tr, w'. rewrite (handleGenerate_edit_trace env w Hmode Himgs Hprompt).
      rewrite (save_trace_nonempty env _ Hne), <- Htext, <- !app_assoc. reflexivity. }
    split.
    { rewrite Htr. autorewrite with log. rewrite writes_loop_trace.
      destruct (setItem_throws env App.LOCAL_STORAGE_KEY text); reflexivity. }
    split.
    { intros _. split; [unfold w'; rewrite Hui; exact Hne|].
      split.
      - eexists. split; [exact Htr|]. autorewrite with log. split.
        + now rewrite writes_loop_trace.
        + now rewrite service_calls_loop_trace.
      - unfold w'. rewrite Hui. split; reflexivity. }
    split; [exact Hret|].
    intros refuses. unfold w'. rewrite !Hui.
    now rewrite loop_results_with_setItem_throws.
  - (* an analysis *)
    assert (Hui := fun e => handleGenerate_analyze_ui e w image rest Hmode Himgs Hprompt).
    destruct (analyze_trace_shape env (serviceCalls w) (App.base64_of image)
                (type (file image)) (prompt (ui w))) as (q & Eq & Hq).
    split.
    { unfold tr, w'. rewrite (handleGenerate_analyze_trace env w image rest Hmode Himgs Hprompt).
      rewrite Eq. autorewrite with log.
      change (writes (ServiceCall Analyze (App.base64_of image) (type (file image))
                        (prompt (ui w)) :: q)) with (writes q).
      rewrite (writes_quiet q Hq).
      destruct (analyze_result env _ _ _ _); reflexivity. }
    split; [discriminate|].
    split; [exact Hret|].
    intros refuses. unfold w'. rewrite !Hui. reflexivity.
Qed.

(** On the three photos with a storage that refuses every write: the write is
    attempted once, nothing is stored, no error is set, and the run ends in
    the state it ends in when the write succeeds. *)
Lemma snapshot_written_only_after_edit_run_scenario :
  let w := Scenario.world (Scenario.state edit Scenario.images "Remove the background") ∅ in
  let w' := run (App.handleGenerate Scenario.env_storage_full) w in
  runs_edit (ui w) = true /\
  writes (events_since w w')
    = [(App.LOCAL_STORAGE_KEY, snapshot_text (editedImages (ui w')))] /\
  localStorage w' !! App.LOCAL_STORAGE_KEY = None /\
  error (ui w') = None /\
  ui (run (App.handleGenerate Scenario.env) w) = ui w'.
Proof.
  intros w w'.
  destruct (snapshot_written_only_after_edit_run Scenario.env_storage_full w)
    as (_ & _ & _ & _ & _ & W & E & _ & N).
  assert (R : runs_edit (ui w) = true) by reflexivity.
  split; [exact R|]. split; [exact W|].
  split; [vm_compute; reflexivity|].
  split; [exact (proj1 (proj2 (proj2 (E R))))|].
  exact (N (fun _ _ => None)).
Defined.

(** C8. Whenever no image is selected, or the prompt is empty, invoking
    generate ends at once: no service call and no request is made, the only
    setter called is the one of the error, which makes the banner show the
    precondition message, and the run state is left as it was (idle stays
    idle: [setIsLoading] is never called). *)
Theorem handleGenerate_precondition (env : Env) (w : World) :
  originalImages (ui w) = [] \/ prompt (ui w) = EmptyString ->
  let w' := run (App.handleGenerate env) w in
  let tr := events_since w w' in
  result (App.handleGenerate env) w = Return tt /\
  service_calls tr = [] /\
  requests tr = [] /\
  updates tr = [SetError (Some "Please upload an image and provide a prompt.")] /\
  banner (ui w') = Some "Please upload an image and provide a prompt." /\
  isLoading (ui w') = isLoading (ui w) /\
  (isLoading (ui w) = false -> isLoading (ui w') = false).
Proof.
  intros H w' tr.
  assert (Htr : tr = [Update (SetError (Some "Please upload an image and provide a prompt."))])
    by apply (handleGenerate_rejected_trace env w H).
  assert (Hui : ui w' = apply_setter (SetError (Some "Please upload an image and provide a prompt.")) (ui w)).
  { unfold w', run. now rewrite (handleGenerate_rejected_eq env w H). }
  split; [apply handleGenerate_returns|].
  rewrite Htr, Hui. repeat split. cbn [apply_setter isLoading]. auto.
Qed.

(** With a prompt but no image selected. *)
Lemma handleGenerate_precondition_scenario :
  let w := Scenario.world (Scenario.state edit [] "Remove the background") ∅ in
  let w' := run (App.handleGenerate Scenario.env) w in
  (originalImages (ui w) = [] \/ prompt (ui w) = EmptyString) /\
  service_calls (events_since w w') = [] /\
  banner (ui w') = Some "Please upload an image and provide a prompt." /\
  isLoading (ui w') = false.
Proof.
  intros w w'.
  assert (H : originalImages (ui w) = [] \/ prompt (ui w) = EmptyString)
    by (left; reflexivity).
  destruct (handleGenerate_precondition Scenario.env w H) as (_ & C & _ & _ & B & _ & L).
  split; [exact H | split; [exact C | split; [exact B | apply L; reflexivity]]].
Defined.

(** C9. Switching mode always yields the chosen mode with an empty
    selection, empty edit outcomes, no analysis result, an empty prompt and
    no active error, whatever the state before. *)
Theorem handleModeChange_resets (newMode : Mode) (w : World) :
  let w' := run (App.handleModeChange newMode) w in
  result (App.handleModeChange newMode) w = Return tt /\
  mode (ui w') = newMode /\
  originalImages (ui w') = [] /\
  editedImages (ui w') = [] /\
  analysisResult (ui w') = None /\
  prompt (ui w') = EmptyString /\
  error (ui w') = None /\
  banner (ui w') = None /\
  progress (ui w') = None.
Proof.
  destruct newMode; cbv zeta; repeat split.
Qed.

(** C10. Invoking generate with its preconditions met clears the edit
    outcomes shown before, the analysis result shown before and any active
    error before the first service call is made (and there is such a
    call): the state, which is the replay of the setter calls of the run,
    has all three empty after the setter calls that precede the call.
    Every list of outcomes published during the run is a prefix of the one
    the run ends with, so that nothing of an earlier run is ever shown with
    the results of the new one. *)
Theorem handleGenerate_clears_before_calls (env : Env) (w : World) :
  originalImages (ui w) <> [] ->
  prompt (ui w) <> EmptyString ->
  let w' := run (App.handleGenerate env) w in
  let tr := events_since w w' in
  ui w' = replay (updates tr) (ui w) /\
  (exists before call after,
      tr = before ++ call :: after /\
      service_calls before = [] /\
      requests before = [] /\
      is_Some (service_call_of call) /\
      editedImages (replay (updates before) (ui w)) = [] /\
      analysisResult (replay (updates before) (ui w)) = None /\
      error (replay (updates before) (ui w)) = None) /\
  Forall (fun l => l `prefix_of` editedImages (ui w')) (published tr).
Proof.
  intros Himgs Hprompt w' tr. apply truthy_true in Hprompt.
  split; [apply handleGenerate_replay|].
  destruct (mode (ui w)) eqn:Hmode.
  - (* an edit run *)
    assert (Htr := handleGenerate_edit_trace env w Hmode Himgs Hprompt).
    fold w' in Htr. fold tr in Htr.
    split.
    + exists (prologue (length (originalImages (ui w)))).
      rewrite Htr.
      destruct (originalImages (ui w)) as [|image rest] eqn:E; [congruence|].
      cbn [loop_trace].
      destruct (item_trace_shape env (serviceCalls w) 0 (prompt (ui w)) image) as (q & -> & _).
      rewrite <- !app_comm_cons.
      do 2 eexists. split; [reflexivity|]. repeat split. eexists; reflexivity.
    + rewrite Htr. unfold w'. rewrite (handleGenerate_edit_ui env w Hmode Himgs Hprompt).
      cbn [editedImages]. autorewrite with log. rewrite published_save_trace.
      repeat (apply Forall_app; split).
      * repeat constructor. apply prefix_nil.
      * apply (published_loop_trace env _ _ _ _ 0 []).
      * constructor.
      * constructor.
  - (* an analysis *)
    destruct (originalImages (ui w)) as [|image rest] eqn:E; [congruence|].
    assert (Htr := handleGenerate_analyze_trace env w image rest Hmode E Hprompt).
    fold w' in Htr. fold tr in Htr.
    destruct (analyze_trace_shape env (serviceCalls w) (App.base64_of image)
                (type (file image)) (prompt (ui w))) as (q & Eq & Hq).
    rewrite Eq in Htr.
    split.
    + exists (prologue (length (image :: rest))).
      rewrite Htr, <- !app_comm_cons.
      do 2 eexists. split; [reflexivity|]. repeat split. eexists; reflexivity.
    + rewrite Htr. autorewrite with log.
      change (published (ServiceCall Analyze (App.base64_of image) (type (file image))
                           (prompt (ui w)) :: q)) with (published q).
      rewrite (published_quiet q Hq).
      repeat (apply Forall_app; split).
      * repeat constructor. apply prefix_nil.
      * constructor.
      * destruct (analyze_result env _ _ _ _); repeat constructor.
Qed.

(** From a state that shows an earlier outcome, an earlier answer and a
    banner. *)
Lemma handleGenerate_clears_before_calls_scenario :
  let w := Scenario.world
             (Scenario.used_state edit Scenario.images "Remove the background") ∅ in
  let w' := run (App.handleGenerate Scenario.env) w in
  (originalImages (ui w) <> [] /\ prompt (ui w) <> EmptyString) /\
  Forall (fun l => l `prefix_of` editedImages (ui w')) (published (events_since w w')).
Proof.
  intros w w'.
  assert (H1 : originalImages (ui w) <> []) by (vm_compute; discriminate).
  assert (H2 : prompt (ui w) <> EmptyString) by (vm_compute; discriminate).
  split; [auto|].
  exact (proj2 (proj2 (handleGenerate_clears_before_calls Scenario.env w H1 H2))).
Defined.

(** * More of the code *)

(** ** Splitting and joining *)

Lemma split_nonempty sep s : split sep s <> [].
Proof.
  destruct s as [|c r]; simpl; [discriminate|].
  destruct (Ascii.eqb c sep); [discriminate|].
  destruct (split sep r); discriminate.
Qed.

Lemma split_without sep s : occurs sep s = false -> split sep s = [s].
Proof.
  induction s as [|c r IH]; simpl; [reflexivity|].
  destruct (Ascii.eqb c sep); [discriminate|].
  simpl. intros H. now rewrite (IH H).
Qed.

Lemma split_app sep a b :
  split sep (a +:+ String sep b) = split sep a ++ split sep b.
Proof.
  induction a as [|c r IH]; simpl.
  - now rewrite Ascii.eqb_refl.
  - destruct (Ascii.eqb c sep); [now rewrite IH|].
    rewrite IH. destruct (split sep r) as [|h t] eqn:E; [|reflexivity].
    now destruct (split_nonempty sep r).
Qed.

Lemma join_cons sep part rest :
  rest <> [] ->
  ImageResult.join sep (part :: rest) = part +:+ sep +:+ ImageResult.join sep rest.
Proof. destruct rest; [congruence | reflexivity]. Qed.

(** [s.split(c).join(c)] is [s]. *)
Lemma join_split sep s : ImageResult.join (String sep EmptyString) (split sep s) = s.
Proof.
  induction s as [|c r IH]; [reflexivity|].
  simpl split. destruct (Ascii.eqb c sep) eqn:E.
  - apply Ascii.eqb_eq in E as ->.
    rewrite join_cons by apply split_nonempty. now rewrite IH.
  - destruct (split sep r) as [|h t] eqn:S; [now destruct (split_nonempty sep r)|].
    destruct t as [|h' t].
    + simpl in *. now rewrite IH.
    + rewrite join_cons by discriminate. rewrite join_cons in IH by discriminate.
      rewrite <- IH. reflexivity.
Qed.

(** ** The name of a download *)

(** X1. A file name with an extension is downloaded under its stem, the
    part before the last dot, with the fixed suffix: earlier dots stay in
    the name, and a name that is nothing but an extension is downloaded as
    [image-edited.jpg]. *)
Theorem download_name_strips_last_extension (stem ext : string) :
  occurs "." ext = false ->
  ImageResult.download_name (stem +:+ "." +:+ ext)
  = (if truthy stem then stem else "image") +:+ "-edited.jpg".
Proof.
  intros Hext. unfold ImageResult.download_name.
  change (stem +:+ "." +:+ ext) with (stem +:+ String "." ext).
  rewrite split_app, (split_without _ _ Hext).
  assert (L : Nat.ltb 1 (length (split "." stem ++ [ext])) = true).
  { rewrite length_app. destruct (split "." stem) eqn:E; [now destruct (split_nonempty "." stem)|].
    simpl. apply Nat.ltb_lt. lia. }
  rewrite L, removelast_last.
  change "."%string with (String "." EmptyString). now rewrite join_split.
Qed.

(** On a name with two dots, and on a name that starts with its only dot. *)
Lemma download_name_strips_last_extension_scenario :
  (occurs "." "png" = false) /\
  ImageResult.download_name "photo.final.png" = "photo.final-edited.jpg" /\
  ImageResult.download_name ".png" = "image-edited.jpg".
Proof.
  assert (H : occurs "." "png" = false) by reflexivity.
  split; [exact H|]. split.
  - exact (download_name_strips_last_extension "photo.final" "png" H).
  - exact (download_name_strips_last_extension "" "png" H).
Defined.

(** X2. A file name without a dot is downloaded under its whole name with
    the fixed suffix, and an empty name as [image-edited.jpg]. *)
Theorem download_name_without_extension (originalFilename : string) :
  occurs "." originalFilename = false ->
  ImageResult.download_name originalFilename
  = (if truthy originalFilename then originalFilename else "image") +:+ "-edited.jpg".
Proof.
  intros H. unfold ImageResult.download_name.
  rewrite (split_without _ _ H). reflexivity.
Qed.

Lemma download_name_without_extension_scenario :
  (occurs "." "README" = false) /\
  ImageResult.download_name "README" = "README-edited.jpg".
Proof.
  assert (H : occurs "." "README" = false) by reflexivity.
  split; [exact H | exact (download_name_without_extension "README" H)].
Defined.

(** ** The media encoder *)

Section EncoderFacts.
Variable read : nat -> File -> outcome string.


Lemma read_from_failure files :
  forall i j f reason,
    files !! j = Some f ->
    read (i + j) f = Throw reason ->
    exists reason', read_from read i files = Throw reason'.
Proof.
  induction files as [|f0 rest IH]; intros i j f reason Hj Hr.
  - now rewrite lookup_nil in Hj.
  - simpl. destruct j as [|j]; simpl in Hj.
    + injection Hj as ->. rewrite Nat.add_0_r in Hr. rewrite Hr. eauto.
    + destruct (read i f0); [|eauto].
      replace (i + S j) with (S i + j) in Hr by lia.
      destruct (IH (S i) j f reason Hj Hr) as (r' & ->). eauto.
Qed.
End EncoderFacts.



(** X4. One failed read fails the whole selection: the handler of the file
    input ends by an exception, [onImagesSelect] is never called, and the
    cells, the storage and the log are as they were. *)
Theorem handleFileChange_failed_read (read : nat -> File -> outcome string)
    (files : list File) (j : nat) (f : File) (reason : Thrown) (w : World) :
  files !! j = Some f ->
  read j f = Throw reason ->
  (exists reason',
      result (ControlPanel.handleFileChange read App.handleImagesSelect (Some files)) w
      = Throw reason') /\
  run (ControlPanel.handleFileChange read App.handleImagesSelect (Some files)) w = w.
Proof.
  intros Hj Hr.
  destruct (read_from_failure read files 0 j f reason Hj Hr) as (r' & E).
  destruct files as [|f0 rest]; [now rewrite lookup_nil in Hj|].
  unfold result, run, ControlPanel.handleFileChange, bind, settle, fileListToBase64.
  rewrite E. cbn. eauto.
Qed.

Lemma handleFileChange_failed_read_scenario :
  let read := fun (i : nat) (f : File) =>
                if Nat.eqb i 1 then Throw (NonError "ProgressEvent")
                else Return ("data:image/png;base64," +:+ name f) in
  let files := [ {| name := "a.png"; type := "image/png" |};
                 {| name := "b.png"; type := "image/png" |} ] in
  let w := Scenario.after_edit_run in
  run (ControlPanel.handleFileChange read App.handleImagesSelect (Some files)) w = w.
Proof.
  intros read files w.
  exact (proj2 (handleFileChange_failed_read read files 1
                  {| name := "b.png"; type := "image/png" |} (NonError "ProgressEvent") w
                  eq_refl eq_refl)).
Defined.




(** ** The edit service *)

(** X6. The edit service never returns an empty text: what it returns is
    the first non-empty inline data of the first candidate of the answer.
    When it throws, the exception is either the one of the client's
    constructor, untouched, or the fixed error of the service: a request
    that throws and an answer without an image both end in that same error.
    The call counts as one, sends at most one request, and leaves the cells
    and the storage alone. *)
Theorem editImageWithPrompt_outcome (env : Env) (b : option string) (m p : string)
    (w : World) :
  let k := serviceCalls w in
  let r := result (geminiService.editImageWithPrompt env b m p) w in
  let w' := run (geminiService.editImageWithPrompt env b m p) w in
  (forall d, r = Return d ->
     truthy d = true /\
     GoogleGenAI_throws env k = None /\
     exists response,
       generateContent_ends env k (edit_request b m p) = Return response /\
       geminiService.first_image response = Some d) /\
  (forall e, r = Throw e ->
     GoogleGenAI_throws env k = Some e \/
     (GoogleGenAI_throws env k = None /\
      e = ErrorObject "Failed to communicate with the AI model. Please check your API key and network connection.")) /\
  ui w' = ui w /\
  localStorage w' = localStorage w /\
  serviceCalls w' = S k /\
  length (requests (events_since w w')) <= 1.
Proof.
  intros k r w'. unfold r, w', result, run. rewrite editImageWithPrompt_eq. cbn [fst snd].
  fold k. split; [|split; [|split; [reflexivity | split; [reflexivity | split; [reflexivity|]]]]].
  - intros d Hd. split; [exact (edit_result_truthy env k b m p d Hd)|].
    unfold edit_result in Hd.
    destruct (GoogleGenAI_throws env k); [discriminate|]. split; [reflexivity|].
    destruct (generateContent_ends env k (edit_request b m p)) as [resp|]; [|discriminate].
    exists resp. split; [reflexivity|].
    destruct (geminiService.first_image resp); [|discriminate]. now injection Hd as ->.
  - intros e He. unfold edit_result in He.
    destruct (GoogleGenAI_throws env k) as [e0|]; [left; now injection He as ->|].
    right. split; [reflexivity|].
    destruct (generateContent_ends env k (edit_request b m p)) as [resp|];
      [destruct (geminiService.first_image resp); [discriminate|]|];
      now injection He as <-.
  - erewrite events_since_app by reflexivity.
    unfold edit_trace. destruct (GoogleGenAI_throws env k); [cbn; lia|].
    destruct (generateContent_ends env k (edit_request b m p)) as [resp|];
      [destruct (geminiService.first_image resp)|]; cbn; lia.
Qed.

(** X25. The analysis service checks nothing in the answer: every answer
    to its request is a success whose result is the text of the answer, an
    empty text included.  When it throws, the exception is either the one
    of the client's constructor, untouched, or the fixed error of the
    analysis, and the latter only when the request itself threw.  The call
    counts as one, sends at most one request, and leaves the cells and the
    storage alone. *)
Theorem analyzeImageWithPrompt_outcome (env : Env) (b : option string) (m p : string)
    (w : World) :
  let k := serviceCalls w in
  let r := result (geminiService.analyzeImageWithPrompt env b m p) w in
  let w' := run (geminiService.analyzeImageWithPrompt env b m p) w in
  (forall response,
     GoogleGenAI_throws env k = None ->
     generateContent_ends env k (analyze_request b m p) = Return response ->
     r = Return (GenAI.GenerateContentResponse.text response)) /\
  (forall textResult, r = Return textResult ->
     GoogleGenAI_throws env k = None /\
     exists response,
       generateContent_ends env k (analyze_request b m p) = Return response /\
       GenAI.GenerateContentResponse.text response = textResult) /\
  (forall e, r = Throw e ->
     GoogleGenAI_throws env k = Some e \/
     (GoogleGenAI_throws env k = None /\
      (exists thrown, generateContent_ends env k (analyze_request b m p) = Throw thrown) /\
      e = ErrorObject "Failed to communicate with the AI model for analysis. Please check your API key and network connection.")) /\
  ui w' = ui w /\
  localStorage w' = localStorage w /\
  serviceCalls w' = S k /\
  length (requests (events_since w w')) <= 1.
Proof.
  intros k r w'. unfold r, w', result, run. rewrite analyzeImageWithPrompt_eq. cbn [fst snd].
  fold k. unfold analyze_result.
  split; [|split; [|split; [|split; [reflexivity | split; [reflexivity | split; [reflexivity|]]]]]].
  - intros response Hnew Hresp. now rewrite Hnew, Hresp.
  - intros textResult Ht.
    destruct (GoogleGenAI_throws env k); [discriminate|]. split; [reflexivity|].
    destruct (generateContent_ends env k (analyze_request b m p)) as [resp|]; [|discriminate].
    exists resp. split; [reflexivity|]. now injection Ht.
  - intros e He.
    destruct (GoogleGenAI_throws env k) as [e0|]; [left; now injection He as ->|].
    right. split; [reflexivity|].
    destruct (generateContent_ends env k (analyze_request b m p)) as [resp|thrown];
      [discriminate|].
    split; [eauto|]. now injection He as <-.
  - erewrite events_since_app by reflexivity.
    unfold analyze_trace. destruct (GoogleGenAI_throws env k); [cbn; lia|].
    destruct (generateContent_ends env k (analyze_request b m p)); cbn; lia.
Qed.

(** X7. Only the first candidate of an answer is looked at: when it holds
    no inline data, the edit fails with the fixed error of the service,
    whatever the candidates after it hold. *)
Theorem editImageWithPrompt_first_candidate_only (env : Env) (b : option string)
    (m p : string) (w : World) (response : GenAI.GenerateContentResponse.t)
    (candidate : GenAI.Candidate) (others : list GenAI.Candidate) :
  GoogleGenAI_throws env (serviceCalls w) = None ->
  generateContent_ends env (serviceCalls w) (edit_request b m p) = Return response ->
  GenAI.GenerateContentResponse.candidates response = Some (candidate :: others) ->
  geminiService.first_image
    {| GenAI.GenerateContentResponse.candidates := Some [candidate];
       GenAI.GenerateContentResponse.text := GenAI.GenerateContentResponse.text response |}
  = None ->
  result (geminiService.editImageWithPrompt env b m p) w = Throw edit_failure.
Proof.
  intros Hnew Hresp Hc Hfirst.
  unfold result. rewrite editImageWithPrompt_eq. cbn [fst].
  unfold edit_result. rewrite Hnew, Hresp.
  unfold geminiService.first_image in *. rewrite Hc. cbn in Hfirst. now rewrite Hfirst.
Qed.

Lemma editImageWithPrompt_first_candidate_only_scenario :
  let empty := {| GenAI.content := None |} in
  let answer := Scenario.answer "EDITED" "" in
  let response :=
    {| GenAI.GenerateContentResponse.candidates :=
         option_map (cons empty) (GenAI.GenerateContentResponse.candidates answer);
       GenAI.GenerateContentResponse.text := "" |} in
  let env := Browser.env (fun _ => None) (fun _ _ => Return response) in
  let w := Scenario.world initialState ∅ in
  result (geminiService.editImageWithPrompt env (Some "AAAA") "image/png" "Remove the background") w
  = Throw edit_failure.
Proof.
  intros empty answer response env w.
  eapply (editImageWithPrompt_first_candidate_only env (Some "AAAA") "image/png"
            "Remove the background" w response empty); reflexivity.
Defined.

(** ** The handlers of the selection *)

Lemma filter_index_remove {A} (idx : nat) (l : list A) :
  forall k,
    filter_index (fun index => negb (Nat.eqb index idx)) k l
    = if Nat.ltb idx k then l else take (idx - k) l ++ drop (S (idx - k)) l.
Proof.
  induction l as [|x l IH]; intros k.
  - destruct (Nat.ltb idx k); [reflexivity|]. now rewrite take_nil, drop_nil.
  - simpl filter_index. rewrite IH.
    destruct (Nat.eqb k idx) eqn:E; simpl negb.
    + apply Nat.eqb_eq in E as ->.
      rewrite (proj2 (Nat.ltb_lt idx (S idx))) by lia.
      rewrite Nat.ltb_irrefl, Nat.sub_diag. reflexivity.
    + apply Nat.eqb_neq in E.
      destruct (Nat.ltb idx k) eqn:L.
      * apply Nat.ltb_lt in L. now rewrite (proj2 (Nat.ltb_lt idx (S k))) by lia.
      * apply Nat.ltb_ge in L. rewrite (proj2 (Nat.ltb_ge idx (S k))) by lia.
        replace (idx - k) with (S (idx - S k)) by lia. reflexivity.
Qed.

(** X8. Removing the image at an index leaves the images before it and the
    images after it, in their order; an index outside the selection leaves
    the selection as it was, and the edit outcomes, the analysis result and
    the stored snapshot are dropped all the same.  The mode, the prompt,
    the error, the run state and the progress are not touched. *)
Theorem handleRemoveImage_selection (index : nat) (w : World) :
  let w' := run (App.handleRemoveImage index) w in
  let before := originalImages (ui w) in
  originalImages (ui w') = take index before ++ drop (S index) before /\
  (index < length before -> length (originalImages (ui w')) = length before - 1) /\
  (length before <= index ->
     originalImages (ui w') = before /\ editedImages (ui w') = [] /\
     analysisResult (ui w') = None /\
     localStorage w' !! App.LOCAL_STORAGE_KEY = None) /\
  mode (ui w') = mode (ui w) /\ prompt (ui w') = prompt (ui w) /\
  error (ui w') = error (ui w) /\ isLoading (ui w') = isLoading (ui w) /\
  progress (ui w') = progress (ui w).
Proof.
  intros w' before.
  assert (E : originalImages (ui w') = take index before ++ drop (S index) before).
  { unfold w', run, App.handleRemoveImage, bind, get_ui, set, Storage.removeItem.
    cbn [snd ui apply_setter originalImages].
    rewrite filter_index_remove. cbn [Nat.ltb Nat.leb]. now rewrite Nat.sub_0_r. }
  split; [exact E|]. split; [|split; [|repeat split]].
  - intros Hlt. rewrite E, length_app, length_take, length_drop. lia.
  - intros Hge. split; [|split; [reflexivity | split; [reflexivity | apply lookup_delete_eq]]].
    rewrite E, take_ge, drop_ge by lia. apply app_nil_r.
Qed.

(** X9. Clearing the selection twice is the same as clearing it once, and
    so is choosing the same mode twice: the cells and the storage are the
    same after the second call as after the first. *)
Theorem clear_and_mode_change_idempotent (newMode : Mode) (w : World) :
  (let w1 := run App.handleClearImages w in
   let w2 := run App.handleClearImages w1 in
   ui w2 = ui w1 /\ localStorage w2 = localStorage w1) /\
  (let w1 := run (App.handleModeChange newMode) w in
   let w2 := run (App.handleModeChange newMode) w1 in
   ui w2 = ui w1 /\ localStorage w2 = localStorage w1).
Proof.
  split; cbv zeta.
  - split; [reflexivity|]. apply delete_delete_eq.
  - destruct newMode; (split; [reflexivity|]); [reflexivity | apply delete_delete_eq].
Qed.

(** X10. Selections compose by mode.  In the editor two selections in a row
    are one selection of the two lists, the earlier files first; in the
    analyzer the later selection replaces the earlier one, and only its
    first file is kept. *)
Theorem handleImagesSelect_twice (first second : list ImageFile) (w : World) :
  let w2 := run (App.handleImagesSelect second) (run (App.handleImagesSelect first) w) in
  match mode (ui w) with
  | edit =>
      ui w2 = ui (run (App.handleImagesSelect (first ++ second)) w) /\
      originalImages (ui w2) = originalImages (ui w) ++ first ++ second
  | analyze =>
      ui w2 = ui (run (App.handleImagesSelect second) w) /\
      originalImages (ui w2) = firstn 1 second
  end /\
  localStorage w2 = delete App.LOCAL_STORAGE_KEY (localStorage w).
Proof.
  intros w2. unfold w2, run, App.handleImagesSelect, bind, get_ui, set, Storage.removeItem.
  cbv beta iota zeta.
  destruct (mode (ui w)) eqn:Hmode; cbn [Mode_eqb snd ui localStorage apply_setter mode
                                          originalImages];
    rewrite ?Hmode; cbn [Mode_eqb snd ui localStorage apply_setter mode originalImages];
    (split; [split|]); rewrite ?app_assoc; try reflexivity; apply delete_delete_eq.
Qed.

(** ** More on generate *)

Lemma handleGenerate_storage env w :
  localStorage (run (App.handleGenerate env) w) =
    if runs_edit (ui w)
    then save_storage env
           (loop_results env (prompt (ui w)) (serviceCalls w) (originalImages (ui w)))
           (localStorage w)
    else localStorage w.
Proof.
  unfold run.
  destruct (handleGenerate_cases (ui w))
    as [[R H] | [(R & Hmode & Himgs & Hprompt) | (R & Hmode & (image & rest & Himgs) & Hprompt)]];
    rewrite R.
  - now rewrite (handleGenerate_rejected_eq env w H).
  - now rewrite (handleGenerate_edit_eq env w Hmode Himgs Hprompt).
  - now rewrite (handleGenerate_analyze_eq env w image rest Hmode Himgs Hprompt).
Qed.

Lemma lookup_loop_results env p images :
  forall k i,
    loop_results env p k images !! i = item_result env (k + i) p <$> images !! i.
Proof.
  induction images as [|image rest IH]; intros k i; [reflexivity|].
  destruct i as [|i]; simpl.
  - now rewrite Nat.add_0_r.
  - rewrite IH. now replace (S k + i) with (k + S i) by lia.
Qed.

Lemma removals_quiet q : Forall (fun e => quiet e = true) q -> removals q = [].
Proof. intros Hq. apply omap_quiet; [intros []; (discriminate || reflexivity) | exact Hq]. Qed.

Lemma removals_app a b : removals (a ++ b) = removals a ++ removals b.
Proof. apply omap_app. Qed.

Lemma removals_loop_trace env p n images :
  forall k i results, removals (loop_trace env p n k i results images) = [].
Proof.
  induction images as [|image rest IH]; intros k i results; [reflexivity|].
  cbn [loop_trace]. rewrite !removals_app, IH.
  destruct (item_trace_shape env k i p image) as (q & -> & Hq).
  change (removals (ServiceCall Edit (App.base64_of image) (type (file image)) p :: q))
    with (removals q).
  now rewrite (removals_quiet q Hq).
Qed.

Lemma handleGenerate_other_keys env w :
  forall key, key <> App.LOCAL_STORAGE_KEY ->
              localStorage (run (App.handleGenerate env) w) !! key = localStorage w !! key.
Proof.
  intros key Hkey. rewrite handleGenerate_storage.
  destruct (runs_edit (ui w)); [|reflexivity].
  unfold save_storage. destruct (loop_results _ _ _ _); [reflexivity|].
  destruct (setItem_throws env _ _); [reflexivity|].
  apply lookup_insert_ne. congruence.
Qed.

(** X11. Generate never changes what it works on: the mode, the selection
    and the prompt are the same after it as before, whatever the outcome.
    It never removes a key of the storage and leaves every key but the
    fixed one as it was; the number of service calls made never goes
    down. *)
Theorem handleGenerate_keeps_inputs (env : Env) (w : World) :
  let w' := run (App.handleGenerate env) w in
  mode (ui w') = mode (ui w) /\
  originalImages (ui w') = originalImages (ui w) /\
  prompt (ui w') = prompt (ui w) /\
  removals (events_since w w') = [] /\
  (forall key, key <> App.LOCAL_STORAGE_KEY -> localStorage w' !! key = localStorage w !! key) /\
  serviceCalls w <= serviceCalls w'.
Proof.
  intros w'.
  assert (Hst := handleGenerate_other_keys env w). fold w' in Hst.
  destruct (handleGenerate_cases (ui w))
    as [[R H] | [(R & Hmode & Himgs & Hprompt) | (R & Hmode & (image & rest & Himgs) & Hprompt)]].
  - unfold w'. rewrite (handleGenerate_rejected_trace env w H).
    unfold run. rewrite (handleGenerate_rejected_eq env w H). cbn [snd ui serviceCalls].
    repeat split; try reflexivity; try exact Hst; lia.
  - unfold w'. rewrite (handleGenerate_edit_trace env w Hmode Himgs Hprompt),
      (handleGenerate_edit_ui env w Hmode Himgs Hprompt).
    assert (Hc : serviceCalls w <= serviceCalls (run (App.handleGenerate env) w)).
    { unfold run. rewrite (handleGenerate_edit_eq env w Hmode Himgs Hprompt).
      cbn [snd serviceCalls]. lia. }
    repeat split; try reflexivity; try exact Hst; try exact Hc.
    rewrite !removals_app, removals_loop_trace.
    unfold save_trace. destruct (loop_results _ _ _ _); [reflexivity|].
    destruct (setItem_throws env _ _); reflexivity.
  - unfold w'. rewrite (handleGenerate_analyze_trace env w image rest Hmode Himgs Hprompt),
      (handleGenerate_analyze_ui env w image rest Hmode Himgs Hprompt).
    assert (Hc : serviceCalls w <= serviceCalls (run (App.handleGenerate env) w)).
    { unfold run. rewrite (handleGenerate_analyze_eq env w image rest Hmode Himgs Hprompt).
      cbn [snd serviceCalls]. lia. }
    repeat split; try reflexivity; try exact Hst; try exact Hc.
    destruct (analyze_trace_shape env (serviceCalls w) (App.base64_of image)
                (type (file image)) (prompt (ui w))) as (q & -> & Hq).
    rewrite !removals_app.
    change (removals (ServiceCall Analyze (App.base64_of image) (type (file image))
                        (prompt (ui w)) :: q)) with (removals q).
    rewrite (removals_quiet q Hq).
    destruct (analyze_result env _ _ _ _); reflexivity.
Qed.

(** X12. Whenever the generate button is enabled, a click on it starts a
    run: the first setter called is [setIsLoading(true)], at least one
    service call is made, and the run state is idle again when the handler
    ends.  The guard of the handler cannot fail through the button. *)
Theorem generate_button_enabled_runs (env : Env) (w : World) :
  ControlPanel.generate_disabled (ui w) = false ->
  let w' := run (App.handleGenerate env) w in
  let tr := events_since w w' in
  hd_error (updates tr) = Some (SetIsLoading true) /\
  service_calls tr <> [] /\
  isLoading (ui w') = false.
Proof.
  intros Hd w' tr. unfold ControlPanel.generate_disabled in Hd.
  apply orb_false_elim in Hd as (Hd & Hn). apply orb_false_elim in Hd as (Hl & Hp).
  apply negb_false_iff in Hp. apply Nat.eqb_neq in Hn.
  assert (Himgs : originalImages (ui w) <> []) by (intros E; now rewrite E in Hn).
  destruct (mode (ui w)) eqn:Hmode.
  - unfold tr, w'. rewrite (handleGenerate_edit_trace env w Hmode Himgs Hp),
      (handleGenerate_edit_ui env w Hmode Himgs Hp).
    split; [reflexivity | split; [|reflexivity]].
    autorewrite with log. rewrite service_calls_loop_trace.
    destruct (originalImages (ui w)); [congruence | discriminate].
  - destruct (originalImages (ui w)) as [|image rest] eqn:E; [congruence|].
    unfold tr, w'. rewrite (handleGenerate_analyze_trace env w image rest Hmode E Hp),
      (handleGenerate_analyze_ui env w image rest Hmode E Hp).
    split; [reflexivity | split; [|reflexivity]].
    destruct (analyze_trace_shape env (serviceCalls w) (App.base64_of image)
                (type (file image)) (prompt (ui w))) as (q & -> & Hq).
    discriminate.
Qed.

Lemma generate_button_enabled_runs_scenario :
  let w := Scenario.world (Scenario.state edit Scenario.images "Remove the background") ∅ in
  let w' := run (App.handleGenerate Scenario.env) w in
  ControlPanel.generate_disabled (ui w) = false /\
  hd_error (updates (events_since w w')) = Some (SetIsLoading true) /\
  isLoading (ui w') = false.
Proof.
  intros w w'.
  assert (H : ControlPanel.generate_disabled (ui w) = false) by reflexivity.
  destruct (generate_button_enabled_runs Scenario.env w H) as (A & _ & C).
  split; [exact H | split; [exact A | exact C]].
Defined.

Lemma edit_run_storage env w :
  mode (ui w) = edit ->
  originalImages (ui w) <> [] ->
  truthy (prompt (ui w)) = true ->
  let text :=
    snapshot_text (loop_results env (prompt (ui w)) (serviceCalls w) (originalImages (ui w))) in
  localStorage (run (App.handleGenerate env) w) =
    match setItem_throws env App.LOCAL_STORAGE_KEY text with
    | Some _ => localStorage w
    | None => <[App.LOCAL_STORAGE_KEY := text]> (localStorage w)
    end.
Proof.
  intros Hmode Himgs Hprompt text. unfold text. rewrite handleGenerate_storage.
  destruct (handleGenerate_cases (ui w))
    as [[R [H|H]] | [(R & _) | (R & Hm & _)]]; [congruence | | | congruence].
  { rewrite H in Hprompt. discriminate. }
  rewrite R. unfold save_storage, snapshot_text.
  destruct (loop_results env (prompt (ui w)) (serviceCalls w) (originalImages (ui w))) eqn:E;
    [|reflexivity].
  apply (f_equal length) in E. rewrite length_loop_results in E.
  destruct (originalImages (ui w)); [congruence | discriminate].
Qed.

(** X13. After an edit run the fixed key holds the text of the final
    outcomes when the storage took the write; when it refused, the storage
    is as it was before the run, an older snapshot included. *)
Theorem handleGenerate_edit_storage (env : Env) (w : World) :
  mode (ui w) = edit ->
  originalImages (ui w) <> [] ->
  prompt (ui w) <> EmptyString ->
  let w' := run (App.handleGenerate env) w in
  let text := snapshot_text (editedImages (ui w')) in
  localStorage w' =
    match setItem_throws env App.LOCAL_STORAGE_KEY text with
    | Some _ => localStorage w
    | None => <[App.LOCAL_STORAGE_KEY := text]> (localStorage w)
    end.
Proof.
  intros Hmode Himgs Hprompt w' text. apply truthy_true in Hprompt.
  unfold text, w'. rewrite (handleGenerate_edit_ui env w Hmode Himgs Hprompt).
  cbn [editedImages]. exact (edit_run_storage env w Hmode Himgs Hprompt).
Qed.

Lemma handleGenerate_edit_storage_scenario :
  let w := Scenario.world (Scenario.state edit Scenario.images "Remove the background")
             (Scenario.stored "[]") in
  (mode (ui w) = edit /\ originalImages (ui w) <> [] /\ prompt (ui w) <> EmptyString) /\
  (let w' := run (App.handleGenerate Scenario.env) w in
   localStorage w' !! App.LOCAL_STORAGE_KEY = Some (snapshot_text (editedImages (ui w')))) /\
  (let w' := run (App.handleGenerate Scenario.env_storage_full) w in
   localStorage w' !! App.LOCAL_STORAGE_KEY = Some "[]").
Proof.
  intros w.
  assert (H1 : mode (ui w) = edit) by reflexivity.
  assert (H2 : originalImages (ui w) <> []) by (vm_compute; discriminate).
  assert (H3 : prompt (ui w) <> EmptyString) by (vm_compute; discriminate).
  split; [auto|]. split; cbv zeta.
  - rewrite (handleGenerate_edit_storage Scenario.env w H1 H2 H3). cbv zeta.
    cbn [setItem_throws Scenario.env Browser.env]. apply lookup_insert_eq.
  - rewrite (handleGenerate_edit_storage Scenario.env_storage_full w H1 H2 H3).
    vm_compute. reflexivity.
Defined.

Lemma fromJSON_toJSON (r : EditedImageResult.t) :
  EditedImageResult.fromJSON (EditedImageResult.toJSON r) = r.
Proof. destruct r as [o [u|] [m|]]; reflexivity. Qed.

Lemma map_fromJSON_toJSON (l : list EditedImageResult.t) :
  List.map EditedImageResult.fromJSON (List.map EditedImageResult.toJSON l) = l.
Proof. induction l as [|r l IH]; simpl; [|rewrite fromJSON_toJSON, IH]; reflexivity. Qed.

(** X14. What an edit run stores, the next mounting restores.  When the
    storage took the write and [JSON.parse] reads the stored text back as
    the array it was written from, the component mounted over that storage
    is in edit mode with exactly the outcomes of the run, an empty
    selection, no error, and the storage untouched. *)
Theorem snapshot_restored_on_mount (env : Env) (w : World) :
  mode (ui w) = edit ->
  originalImages (ui w) <> [] ->
  prompt (ui w) <> EmptyString ->
  let w' := run (App.handleGenerate env) w in
  let text := snapshot_text (editedImages (ui w')) in
  setItem_throws env App.LOCAL_STORAGE_KEY text = None ->
  JSON_parse env text
    = Return (JArray (List.map EditedImageResult.toJSON (editedImages (ui w')))) ->
  let again := mounted env (localStorage w') in
  editedImages (ui again) = editedImages (ui w') /\
  mode (ui again) = edit /\
  originalImages (ui again) = [] /\
  error (ui again) = None /\
  localStorage again = localStorage w'.
Proof.
  intros Hmode Himgs Hprompt w' text Hset Hparse again.
  assert (Hst := edit_run_storage env w Hmode Himgs (truthy_true _ Hprompt)).
  assert (Hui := handleGenerate_edit_ui env w Hmode Himgs (truthy_true _ Hprompt)).
  cbv zeta in Hst. fold w' in Hui.
  assert (Htext : text = snapshot_text (loop_results env (prompt (ui w)) (serviceCalls w)
                                          (originalImages (ui w)))).
  { unfold text. now rewrite Hui. }
  rewrite <- Htext, Hset in Hst. fold w' in Hst.
  unfold again, mounted, run. rewrite loadSession_eq. cbn [snd localStorage ui].
  rewrite Hst, lookup_insert_eq.
  assert (T : truthy text = true) by reflexivity.
  rewrite T, Hparse. cbv zeta. cbn [ui localStorage].
  rewrite map_fromJSON_toJSON. repeat split.
Qed.

Lemma snapshot_restored_on_mount_scenario :
  let w := Scenario.world (Scenario.state edit Scenario.images "Remove the background") ∅ in
  let w' := run (App.handleGenerate Scenario.env) w in
  (mode (ui w) = edit /\ originalImages (ui w) <> [] /\ prompt (ui w) <> EmptyString) /\
  editedImages (ui (mounted Scenario.env (localStorage w'))) = editedImages (ui w').
Proof.
  intros w w'.
  assert (H1 : mode (ui w) = edit) by reflexivity.
  assert (H2 : originalImages (ui w) <> []) by (vm_compute; discriminate).
  assert (H3 : prompt (ui w) <> EmptyString) by (vm_compute; discriminate).
  split; [auto|].
  refine (proj1 (snapshot_restored_on_mount Scenario.env w H1 H2 H3 _ _)).
  - reflexivity.
  - vm_compute. reflexivity.
Defined.

(** X15. The i-th outcome of an edit run is decided by the i-th service
    call of the run alone.  If the constructor of the client throws an
    [Error], its message is the message of the outcome (a fixed text for
    any other thrown value); if the request throws, or answers without an
    image, the outcome carries the fixed error of the service, never the
    one of the SDK; otherwise it carries the data URL made of the type of
    the source file and of the returned data. *)
Theorem handleGenerate_edit_outcome_of_call (env : Env) (w : World) (i : nat)
    (image : ImageFile) :
  mode (ui w) = edit ->
  prompt (ui w) <> EmptyString ->
  originalImages (ui w) !! i = Some image ->
  let w' := run (App.handleGenerate env) w in
  let k := serviceCalls w + i in
  let failed message :=
    {| EditedImageResult.originalUrl := url image;
       EditedImageResult.editedUrl := None;
       EditedImageResult.error := Some message |} in
  let fixed := "Failed to communicate with the AI model. Please check your API key and network connection." in
  editedImages (ui w') !! i = Some
    match GoogleGenAI_throws env k with
    | Some err => failed (message_or "An unknown error occurred." err)
    | None =>
        match generateContent_ends env k
                (edit_request (App.base64_of image) (type (file image)) (prompt (ui w))) with
        | Return response =>
            match geminiService.first_image response with
            | Some generated =>
                {| EditedImageResult.originalUrl := url image;
                   EditedImageResult.editedUrl :=
                     Some ("data:" +:+ type (file image) +:+ ";base64," +:+ generated);
                   EditedImageResult.error := None |}
            | None => failed fixed
            end
        | Throw _ => failed fixed
        end
    end.
Proof.
  intros Hmode Hprompt Hi w' k failed fixed. apply truthy_true in Hprompt.
  assert (Himgs : originalImages (ui w) <> []) by (intros E; now rewrite E, lookup_nil in Hi).
  unfold w'. rewrite (handleGenerate_edit_ui env w Hmode Himgs Hprompt). cbn [editedImages].
  rewrite lookup_loop_results, Hi. cbn [fmap option_fmap option_map]. f_equal.
  unfold item_result, edit_result. fold k.
  destruct (GoogleGenAI_throws env k); [reflexivity|].
  destruct (generateContent_ends env k _) as [resp|]; [|reflexivity].
  destruct (geminiService.first_image resp); reflexivity.
Qed.

Lemma handleGenerate_edit_outcome_of_call_scenario :
  let w := Scenario.world (Scenario.state edit Scenario.images "Remove the background") ∅ in
  let w' := run (App.handleGenerate Scenario.env) w in
  (mode (ui w) = edit /\ prompt (ui w) <> EmptyString /\
   originalImages (ui w) !! 1 = Some (Scenario.photo "b.png" "BBBB")) /\
  editedImages (ui w') !! 1 = Some
    {| EditedImageResult.originalUrl := "data:image/png;base64,BBBB";
       EditedImageResult.editedUrl := None;
       EditedImageResult.error :=
         Some "Failed to communicate with the AI model. Please check your API key and network connection." |}.
Proof.
  intros w w'.
  assert (H1 : mode (ui w) = edit) by reflexivity.
  assert (H2 : prompt (ui w) <> EmptyString) by (vm_compute; discriminate).
  assert (H3 : originalImages (ui w) !! 1 = Some (Scenario.photo "b.png" "BBBB"))
    by reflexivity.
  split; [auto|].
  exact (handleGenerate_edit_outcome_of_call Scenario.env w 1 _ H1 H2 H3).
Defined.

(** ** Sessions *)








(** ** Taking a data URL apart *)

Lemma append_assoc (a b c : string) : a +:+ (b +:+ c) = (a +:+ b) +:+ c.
Proof.
  induction a as [|x a IH]; [reflexivity|].
  change (String x (a +:+ (b +:+ c)) = String x ((a +:+ b) +:+ c)). now rewrite IH.
Qed.

Lemma occurs_app c a b : occurs c (a +:+ b) = occurs c a || occurs c b.
Proof. induction a as [|x a IH]; simpl; [reflexivity|]. now rewrite IH, orb_assoc. Qed.

(** X19. What the services are sent as the data of an image.  For a data
    URL made of a type and a payload without commas it is the payload; for
    a URL with several commas it is only what stands between the first and
    the second; for a URL without a comma it is [undefined]. *)
Theorem base64_of_cases (f : File) :
  (forall mime payload,
      occurs "," mime = false -> occurs "," payload = false ->
      App.base64_of {| url := "data:" +:+ mime +:+ ";base64," +:+ payload; file := f |}
      = Some payload) /\
  (forall head piece rest,
      occurs "," head = false -> occurs "," piece = false ->
      App.base64_of {| url := head +:+ "," +:+ piece +:+ "," +:+ rest; file := f |}
      = Some piece) /\
  (forall u, occurs "," u = false -> App.base64_of {| url := u; file := f |} = None).
Proof.
  unfold App.base64_of. cbn [url]. split; [|split].
  - intros mime payload Hm Hp.
    change ("data:" +:+ mime +:+ ";base64," +:+ payload)
      with ("data:" +:+ (mime +:+ (";base64" +:+ String "," payload))).
    rewrite !append_assoc, split_app, (split_without _ payload Hp), split_without;
      [reflexivity|].
    rewrite !occurs_app, Hm. reflexivity.
  - intros head piece rest Hh Hp.
    change (head +:+ "," +:+ piece +:+ "," +:+ rest)
      with (head +:+ String "," (piece +:+ String "," rest)).
    rewrite !split_app, (split_without _ head Hh), (split_without _ piece Hp). reflexivity.
  - intros u Hu. now rewrite (split_without _ u Hu).
Qed.

(** ** What the result panel shows *)

Lemma lookup_cards_from originalImages items :
  forall k i,
    ImageResult.cards_from originalImages k items !! i
    = (fun item => ImageResult.EditResultCard originalImages item (k + i)) <$> items !! i.
Proof.
  induction items as [|item rest IH]; intros k i; [reflexivity|].
  destruct i as [|i]; simpl.
  - now rewrite Nat.add_0_r.
  - rewrite IH. now replace (S k + i) with (k + S i) by lia.
Qed.

Lemma length_cards_from originalImages items :
  forall k, length (ImageResult.cards_from originalImages k items) = length items.
Proof. induction items as [|item rest IH]; intros k; simpl; [|rewrite IH]; reflexivity. Qed.

(** X20. When an edit run has ended, the panel shows the results and
    nothing else, under the heading of the finished progress, one tile per
    image in the order of the selection: the edited picture, with a
    download named after the source file of the same index, for an outcome
    that holds one, and the failure with its message for the others. *)
Theorem render_after_edit_run (env : Env) (w : World) :
  mode (ui w) = edit ->
  originalImages (ui w) <> [] ->
  prompt (ui w) <> EmptyString ->
  let w' := run (App.handleGenerate env) w in
  let n := length (originalImages (ui w)) in
  exists cards,
    ImageResult.render (ui w')
    = Return (ImageResult.Shown
                {| ImageResult.hint := None;
                   ImageResult.results := Some (Some {| current := n; total := n |}, cards);
                   ImageResult.analysis := None |}) /\
    length cards = n /\
    forall i outcome,
      editedImages (ui w') !! i = Some outcome ->
      cards !! i = Some
        match EditedImageResult.editedUrl outcome with
        | Some editedUrl =>
            ImageResult.EditedPicture editedUrl
              (ImageResult.download_name
                 (ImageResult.source_name (originalImages (ui w)) i))
        | None => ImageResult.GenerationFailed (EditedImageResult.error outcome)
        end.
Proof.
  intros Hmode Himgs Hprompt w' n. apply truthy_true in Hprompt.
  assert (Hui := handleGenerate_edit_ui env w Hmode Himgs Hprompt). fold w' in Hui.
  assert (Hall := Forall_loop_results env one_of_two (prompt (ui w)) (originalImages (ui w))
                    (fun k image => one_of_two_item_result env k (prompt (ui w)) image)
                    (serviceCalls w)).
  exists (ImageResult.cards_from (originalImages (ui w)) 0 (editedImages (ui w'))).
  split; [|split].
  - rewrite Hui. unfold ImageResult.render.
    cbn [isLoading mode editedImages originalImages analysisResult progress andb].
    rewrite Hmode. cbn [Mode_eqb andb orb negb ImageResult.truthy_or_null].
    assert (L : Nat.ltb 0 (length (loop_results env (prompt (ui w)) (serviceCalls w)
                                     (originalImages (ui w)))) = true).
    { rewrite length_loop_results. apply Nat.ltb_lt.
      destruct (originalImages (ui w)); [congruence | simpl; lia]. }
    rewrite L. reflexivity.
  - rewrite length_cards_from, Hui. cbn [editedImages]. apply length_loop_results.
  - intros i outcome Hi. rewrite lookup_cards_from, Hi. cbn [fmap option_fmap option_map Nat.add].
    f_equal. rewrite Hui in Hi. cbn [editedImages] in Hi.
    apply list_elem_of_lookup_2, list_elem_of_In in Hi.
    rewrite Forall_forall in Hall. specialize (Hall outcome Hi).
    unfold ImageResult.EditResultCard.
    destruct Hall as [(u & -> & Hu & _) | (m & -> & _)]; [now rewrite Hu | reflexivity].
Qed.

Lemma render_after_edit_run_scenario :
  let w := Scenario.world (Scenario.state edit Scenario.images "Remove the background") ∅ in
  let w' := run (App.handleGenerate Scenario.env) w in
  (mode (ui w) = edit /\ originalImages (ui w) <> [] /\ prompt (ui w) <> EmptyString) /\
  exists cards,
    ImageResult.render (ui w')
    = Return (ImageResult.Shown
                {| ImageResult.hint := None;
                   ImageResult.results := Some (Some {| current := 3; total := 3 |}, cards);
                   ImageResult.analysis := None |}) /\
    cards !! 0 = Some (ImageResult.EditedPicture "data:image/png;base64,EDITED" "a-edited.jpg").
Proof.
  intros w w'.
  assert (H1 : mode (ui w) = edit) by reflexivity.
  assert (H2 : originalImages (ui w) <> []) by (vm_compute; discriminate).
  assert (H3 : prompt (ui w) <> EmptyString) by (vm_compute; discriminate).
  split; [auto|].
  destruct (render_after_edit_run Scenario.env w H1 H2 H3) as (cards & R & _ & C).
  exists cards. split; [exact R|].
  exact (C 0 _ eq_refl).
Defined.

(** X21. When an analysis has ended, the panel shows the picture of the
    first selected image beside the answer, and nothing else; when the
    answer is empty, or the analysis failed, the text beside the picture is
    the placeholder [Analysis will appear here.]. *)
Theorem render_after_analysis (env : Env) (w : World) (image : ImageFile)
    (rest : list ImageFile) :
  mode (ui w) = analyze ->
  originalImages (ui w) = image :: rest ->
  prompt (ui w) <> EmptyString ->
  let w' := run (App.handleGenerate env) w in
  let answer :=
    result (geminiService.analyzeImageWithPrompt env (App.base64_of image)
              (type (file image)) (prompt (ui w))) w in
  ImageResult.render (ui w')
  = Return (ImageResult.Shown
              {| ImageResult.hint := None;
                 ImageResult.results := None;
                 ImageResult.analysis :=
                   Some (url image,
                         match answer with
                         | Return textResult =>
                             if truthy textResult then textResult
                             else "Analysis will appear here."
                         | Throw _ => "Analysis will appear here."
                         end) |}).
Proof.
  intros Hmode Himgs Hprompt w' answer. apply truthy_true in Hprompt.
  assert (Hans : answer = analyze_result env (serviceCalls w) (App.base64_of image)
                            (type (file image)) (prompt (ui w))).
  { unfold answer, result. now rewrite analyzeImageWithPrompt_eq. }
  unfold w'. rewrite (handleGenerate_analyze_ui env w image rest Hmode Himgs Hprompt), Hans.
  cbv zeta. unfold ImageResult.render.
  cbn [isLoading mode editedImages originalImages analysisResult progress andb].
  rewrite Hmode, Himgs. cbn [Mode_eqb andb length Nat.ltb Nat.leb negb].
  rewrite !orb_true_r. cbn [negb andb ImageResult.first_url lookup list_lookup url].
  destruct (analyze_result env _ _ _ _); reflexivity.
Qed.

Lemma render_after_analysis_scenario :
  let image := Scenario.photo "bike.png" "BIKE" in
  let env := Browser.env (fun _ => None) (fun _ _ => Return (Scenario.answer "" "")) in
  let w := Scenario.world (Scenario.state analyze [image] "Describe this image in detail") ∅ in
  let w' := run (App.handleGenerate env) w in
  (mode (ui w) = analyze /\ originalImages (ui w) = [image] /\ prompt (ui w) <> EmptyString) /\
  analysisResult (ui w') = Some EmptyString /\
  ImageResult.render (ui w')
  = Return (ImageResult.Shown
              {| ImageResult.hint := None;
                 ImageResult.results := None;
                 ImageResult.analysis :=
                   Some ("data:image/png;base64,BIKE", "Analysis will appear here.") |}).
Proof.
  intros image env w w'.
  assert (H1 : mode (ui w) = analyze) by reflexivity.
  assert (H2 : originalImages (ui w) = [image]) by reflexivity.
  assert (H3 : prompt (ui w) <> EmptyString) by (vm_compute; discriminate).
  split; [auto|]. split; [vm_compute; reflexivity|].
  exact (render_after_analysis env w image [] H1 H2 H3).
Defined.




(** ** What the result panel shows while a run is in flight *)

Lemma replay_steady n us :
  Forall (fun u => steady n u = true) us ->
  forall s,
    isLoading (replay us s) = isLoading s /\
    mode (replay us s) = mode s /\
    originalImages (replay us s) = originalImages s /\
    ((exists p, progress s = Some p /\ total p = n) ->
     exists p, progress (replay us s) = Some p /\ total p = n).
Proof.
  induction 1 as [|u us Hu _ IH]; intros s; [auto|].
  cbn [replay fold_left]. fold (replay us (apply_setter u s)).
  destruct (IH (apply_setter u s)) as (I1 & I2 & I3 & I4).
  rewrite I1, I2, I3.
  destruct u as [| | | | | | |[p|]]; try discriminate; cbn; repeat split; auto.
  intros _. apply I4. exists p. split; [reflexivity|]. now apply Nat.eqb_eq.
Qed.

Lemma steady_loop_trace env p n images :
  forall k i results,
    Forall (fun u => steady n u = true) (updates (loop_trace env p n k i results images)).
Proof.
  induction images as [|image rest IH]; intros k i results; [constructor|].
  cbn [loop_trace]. rewrite !updates_app, updates_item_trace. cbn.
  constructor; [apply Nat.eqb_refl|]. constructor; [reflexivity|]. apply IH.
Qed.

(** The setter calls of a run that passes the guard: loading is set, the
    three cells are emptied and the progress is set to 0 of n, steady calls
    follow, loading is unset. *)
Lemma handleGenerate_updates_shape env w :
  originalImages (ui w) <> [] ->
  truthy (prompt (ui w)) = true ->
  exists middle,
    updates (events_since w (run (App.handleGenerate env) w)) =
      [SetIsLoading true; SetError None; SetEditedImages []; SetAnalysisResult None;
       SetProgress (Some {| current := 0; total := length (originalImages (ui w)) |})]
      ++ middle ++ [SetIsLoading false] /\
    Forall (fun u => steady (length (originalImages (ui w))) u = true) middle.
Proof.
  intros Himgs Hprompt. destruct (mode (ui w)) eqn:Hmode.
  - rewrite (handleGenerate_edit_trace env w Hmode Himgs Hprompt).
    rewrite !updates_app, updates_save_trace.
    eexists. split; [reflexivity|]. apply steady_loop_trace.
  - destruct (originalImages (ui w)) as [|image rest] eqn:E; [congruence|].
    rewrite (handleGenerate_analyze_trace env w image rest Hmode E Hprompt).
    destruct (analyze_trace_shape env (serviceCalls w) (App.base64_of image)
                (type (file image)) (prompt (ui w))) as (q & -> & Hq).
    rewrite !updates_app.
    change (updates (ServiceCall Analyze (App.base64_of image) (type (file image))
                       (prompt (ui w)) :: q)) with (updates q).
    rewrite (updates_quiet q Hq).
    eexists [_]. split; [reflexivity|].
    destruct (analyze_result env _ _ _ _); repeat constructor.
Qed.

(** X23. While a run is in flight, that is after any number of its setter
    calls but neither none nor all, the result panel shows the loading view
    of the mode and nothing of the outcomes published so far: in the
    editor the skeleton, which has one tile per selected image once the
    progress of the run is set; in the analyzer the picture of the first
    image. *)
Theorem render_while_running (env : Env) (w : World) (j : nat) :
  originalImages (ui w) <> [] ->
  prompt (ui w) <> EmptyString ->
  let us := updates (events_since w (run (App.handleGenerate env) w)) in
  0 < j < length us ->
  let s := replay (take j us) (ui w) in
  exists tiles,
    ImageResult.render s
    = Return match mode (ui w) with
             | edit => ImageResult.EditModeSkeleton tiles
             | analyze =>
                 ImageResult.Analyzing
                   (default EmptyString (url <$> originalImages (ui w) !! 0))
             end /\
    (5 <= j -> tiles = length (originalImages (ui w))).
Proof.
  intros Himgs Hprompt us Hj s. apply truthy_true in Hprompt.
  destruct (handleGenerate_updates_shape env w Himgs Hprompt) as (middle & Hus & Hmid).
  fold us in Hus.
  set (n := length (originalImages (ui w))) in *.
  set (steadies := [SetError None; SetEditedImages []; SetAnalysisResult None;
                    SetProgress (Some {| current := 0; total := n |})] ++ middle).
  assert (Hus' : us = SetIsLoading true :: steadies ++ [SetIsLoading false]).
  { rewrite Hus. unfold steadies. now rewrite <- !app_assoc. }
  assert (Hst : Forall (fun u => steady n u = true) steadies).
  { unfold steadies. apply Forall_app; split; [|exact Hmid].
    repeat constructor. apply Nat.eqb_refl. }
  assert (Hlen : length us = S (length steadies + 1)).
  { rewrite Hus'. cbn [length]. now rewrite length_app. }
  destruct j as [|j]; [lia|].
  assert (Htake : take (S j) us = SetIsLoading true :: take j steadies).
  { rewrite Hus'. cbn [take]. f_equal. apply take_app_le. lia. }
  assert (Hpre : Forall (fun u => steady n u = true) (take j steadies)).
  { rewrite <- (take_drop j steadies) in Hst. now apply Forall_app in Hst as (Hst & _). }
  destruct (replay_steady n (take j steadies) Hpre (apply_setter (SetIsLoading true) (ui w)))
    as (Hload & Hmode & Hsel & _).
  assert (Hs : s = replay (take j steadies) (apply_setter (SetIsLoading true) (ui w))).
  { unfold s. now rewrite Htake. }
  exists (match progress s with Some p => total p | None => 4 end).
  split.
  - unfold ImageResult.render. rewrite Hs, Hload, Hmode, Hsel.
    cbn [apply_setter isLoading mode originalImages andb].
    destruct (mode (ui w)); cbn [Mode_eqb andb].
    + reflexivity.
    + destruct (originalImages (ui w)) as [|image rest]; [congruence | reflexivity].
  - intros H5.
    assert (Hsplit : take j steadies
                     = [SetError None; SetEditedImages []; SetAnalysisResult None;
                        SetProgress (Some {| current := 0; total := n |})]
                       ++ take (j - 4) middle).
    { unfold steadies. rewrite take_app_ge by (cbn [length]; lia). reflexivity. }
    assert (Hrest : Forall (fun u => steady n u = true) (take (j - 4) middle)).
    { rewrite <- (take_drop (j - 4) middle) in Hmid. now apply Forall_app in Hmid as (? & _). }
    rewrite Hs, Hsplit, replay_app.
    destruct (replay_steady n (take (j - 4) middle) Hrest
                (replay [SetError None; SetEditedImages []; SetAnalysisResult None;
                         SetProgress (Some {| current := 0; total := n |})]
                   (apply_setter (SetIsLoading true) (ui w))))
      as (_ & _ & _ & Hp).
    destruct Hp as (p & -> & Hp); [|exact Hp].
    eexists. split; reflexivity.
Qed.

Lemma render_while_running_scenario :
  let w := Scenario.world
             (Scenario.used_state edit Scenario.images "Remove the background") ∅ in
  let us := updates (events_since w (run (App.handleGenerate Scenario.env) w)) in
  (originalImages (ui w) <> [] /\ prompt (ui w) <> EmptyString /\ 0 < 7 < length us) /\
  editedImages (replay (take 7 us) (ui w)) <> [] /\
  ImageResult.render (replay (take 7 us) (ui w)) = Return (ImageResult.EditModeSkeleton 3).
Proof.
  intros w us.
  assert (H1 : originalImages (ui w) <> []) by (vm_compute; discriminate).
  assert (H2 : prompt (ui w) <> EmptyString) by (vm_compute; discriminate).
  assert (H3 : 0 < 7 < length us) by (vm_compute; lia).
  split; [auto|]. split; [vm_compute; discriminate|].
  destruct (render_while_running Scenario.env w 7 H1 H2 H3) as (tiles & R & T).
  unfold us. rewrite R, (T ltac:(lia)). reflexivity.
Defined.
